(** * The search page script [static/app.js], embedded in Rocq

    The script drives one page: it fills an insights dashboard, runs
    searches and shows the details of a selected record.  Its functions
    are embedded here one by one, keeping their names: [escapeHtml],
    [renderMiniList], [loadInsights], [doSearch], [loadDetails].

    JavaScript strings are sequences of UTF-16 code units, values are the
    values [JSON.parse] yields (plus [undefined]), a [throw] is an explicit
    error result, and the page (three panels, the query box, the requests
    sent so far) is a state threaded through the handlers. *)

From Stdlib Require Import Ascii String.
From Stdlib Require Import List NArith Bool Lia Permutation Sorted.

Set Warnings "-register-all".
Import ListNotations.

Local Open Scope N_scope.
Local Open Scope list_scope.

(** ** Strings *)

Module JsString.

(** A code unit of a JavaScript string (an integer below 65536). *)
Definition code_unit := N.

Definition jsstring := list code_unit.

(** Source literals are written as Rocq strings, which hold UTF-8 bytes;
    [utf16] turns the one-, two- and three-byte sequences (the whole Basic
    Multilingual Plane, which covers every literal of the script) into the
    code units the script's strings hold. *)
Fixpoint utf16 (bytes : list N) : jsstring :=
  match bytes with
  | [] => []
  | b0 :: rest =>
      if b0 <? 128 then b0 :: utf16 rest
      else match rest with
           | b1 :: rest1 =>
               if b0 <? 224
               then (N.land b0 31 * 64 + N.land b1 63) :: utf16 rest1
               else match rest1 with
                    | b2 :: rest2 =>
                        (N.land b0 15 * 4096 + N.land b1 63 * 64 + N.land b2 63)
                          :: utf16 rest2
                    | [] => [b0; b1]
                    end
           | [] => [b0]
           end
  end.

Definition lit (s : string) : jsstring :=
  utf16 (map N_of_ascii (list_ascii_of_string s)).

(** Markup literals are full of double quotes.  They are written here with
    an apostrophe at each place where the script has a double quote (no
    markup literal of the script contains an apostrophe), and [html] puts
    the double quotes back. *)
Definition html (s : string) : jsstring :=
  map (fun c => if c =? 39 then 34 else c) (lit s).

Definition eqb (a b : jsstring) : bool :=
  if list_eq_dec N.eq_dec a b then true else false.

(** [a < b] on strings as [Array.prototype.sort] without a comparator uses
    it: code unit by code unit, a proper prefix being smaller. *)
Fixpoint ltb (a b : jsstring) : bool :=
  match a, b with
  | _, [] => false
  | [], _ :: _ => true
  | x :: a', y :: b' => (x <? y) || ((x =? y) && ltb a' b')
  end.

Definition leb (a b : jsstring) : bool := negb (ltb b a).

(** White space and line terminators, the code units [trim] strips. *)
Definition is_white_space (c : code_unit) : bool :=
  existsb (N.eqb c)
    [9; 10; 11; 12; 13; 32; 160; 5760; 8192; 8193; 8194; 8195; 8196; 8197;
     8198; 8199; 8200; 8201; 8202; 8232; 8233; 8239; 8287; 12288; 65279].

Fixpoint trim_start (s : jsstring) : jsstring :=
  match s with
  | c :: s' => if is_white_space c then trim_start s' else s
  | [] => []
  end.

Definition trim (s : jsstring) : jsstring :=
  rev (trim_start (rev (trim_start s))).

(** The decimal numeral of a natural number, as array indices are written
    when they are property keys. *)
Fixpoint digits (d : Decimal.uint) : jsstring :=
  match d with
  | Decimal.Nil => []
  | Decimal.D0 d' => 48 :: digits d'
  | Decimal.D1 d' => 49 :: digits d'
  | Decimal.D2 d' => 50 :: digits d'
  | Decimal.D3 d' => 51 :: digits d'
  | Decimal.D4 d' => 52 :: digits d'
  | Decimal.D5 d' => 53 :: digits d'
  | Decimal.D6 d' => 54 :: digits d'
  | Decimal.D7 d' => 55 :: digits d'
  | Decimal.D8 d' => 56 :: digits d'
  | Decimal.D9 d' => 57 :: digits d'
  end.

Definition of_nat (n : nat) : jsstring :=
  match n with
  | O => [48]
  | _ => digits (Nat.to_uint n)
  end.

End JsString.

Import JsString.

(** ** Errors *)

(** What a [throw] carries.  The script throws [Error] itself when a
    response is not ok; the others come from the language: a property read
    on [null] or [undefined], a call of something that is not a function
    and a failed conversion to a primitive ([TypeError]), a lone surrogate
    given to [encodeURIComponent] ([URIError]), a body that is not JSON
    ([SyntaxError]). *)
Inductive error : Type :=
| Error (message : jsstring)
| TypeError
| URIError
| SyntaxError.

Inductive result (A : Type) : Type :=
| Ok (a : A)
| Throw (e : error).

Arguments Ok {A} a.
Arguments Throw {A} e.

Definition bind {A B} (r : result A) (k : A -> result B) : result B :=
  match r with
  | Ok a => k a
  | Throw e => Throw e
  end.

Notation "x <- r ;; k" := (bind r (fun x => k))
  (at level 61, r at next level, right associativity).

Definition is_ok {A} (r : result A) : bool :=
  match r with Ok _ => true | Throw _ => false end.

(** ** Sorting *)

Section Sort.
Context {A : Type} (le : A -> A -> bool).

Fixpoint insert (x : A) (l : list A) : list A :=
  match l with
  | [] => [x]
  | y :: l' => if le x y then x :: l else y :: insert x l'
  end.

Fixpoint sort (l : list A) : list A :=
  match l with
  | [] => []
  | x :: l' => insert x (sort l')
  end.
End Sort.

(** ** Values *)

(** A number reaches the script only out of a parsed response, and the
    script does two things with it: it prints it ([String(n)], through
    [escapeHtml]) and it tests it ([n ? .. : ..], [n || ..], [n === 0]).
    A number is therefore kept as what these two observe: its decimal
    text and whether it is zero.  ([JSON.parse] yields no NaN, so being
    zero is the only way for a number to be falsy.) *)
Record number : Type := Number { num_text : jsstring; num_zero : bool }.

Definition number_of_nat (n : nat) : number :=
  Number (of_nat n) (Nat.eqb n 0).

(** The values the script handles.  The members of an object are listed as
    the JSON text lists them; [JSON.parse] defines them one by one, so a
    repeated name keeps the place of its first occurrence and the value of
    its last. *)
Inductive value : Type :=
| VUndefined
| VNull
| VBool (b : bool)
| VNumber (n : number)
| VString (s : jsstring)
| VArray (elements : list value)
| VObject (members : list (jsstring * value)).

Definition members_t := list (jsstring * value).

Fixpoint own (k : jsstring) (m : members_t) : option value :=
  match m with
  | [] => None
  | (k', v) :: m' =>
      match own k m' with
      | Some v' => Some v'
      | None => if eqb k k' then Some v else None
      end
  end.

Definition has_own (k : jsstring) (m : members_t) : bool :=
  match own k m with Some _ => true | None => false end.

(** [ToBoolean]. *)
Definition truthy (v : value) : bool :=
  match v with
  | VUndefined | VNull => false
  | VBool b => b
  | VNumber n => negb (num_zero n)
  | VString s => match s with [] => false | _ => true end
  | VArray _ | VObject _ => true
  end.

Definition nullish (v : value) : bool :=
  match v with
  | VUndefined | VNull => true
  | _ => false
  end.

(** [a || b] and [a ?? b] with a constant right operand. *)
Definition or_else (a b : value) : value := if truthy a then a else b.
Definition coalesce (a b : value) : value := if nullish a then b else a.

(** [String(v)].  An array is joined with commas, [null] and [undefined]
    elements giving the empty string.  An object is converted by its
    [toString] method: the inherited one answers "[object Object]", but a
    member named [toString] shadows it, is not callable (no JSON value is),
    and [valueOf] returns the object itself, so the conversion throws. *)
Fixpoint ToString (v : value) : result jsstring :=
  match v with
  | VUndefined => Ok (lit "undefined")
  | VNull => Ok (lit "null")
  | VBool true => Ok (lit "true")
  | VBool false => Ok (lit "false")
  | VNumber n => Ok (num_text n)
  | VString s => Ok s
  | VArray l =>
      (fix join (l : list value) : result jsstring :=
         match l with
         | [] => Ok []
         | x :: rest =>
             e <- match x with
                  | VUndefined | VNull => Ok []
                  | _ => ToString x
                  end;;
             match rest with
             | [] => Ok e
             | _ :: _ => r <- join rest;; Ok (e ++ lit "," ++ r)
             end
         end) l
  | VObject m =>
      if has_own (lit "toString") m then Throw TypeError
      else Ok (lit "[object Object]")
  end.

(** The index a property key denotes, when it is the canonical numeral of
    an array index (no sign, no leading zero, below 2^32 - 1). *)
Fixpoint numeral (acc : N) (s : jsstring) : option N :=
  match s with
  | [] => Some acc
  | c :: s' =>
      if (48 <=? c) && (c <=? 57) then numeral (acc * 10 + (c - 48)) s'
      else None
  end.

Definition array_index (k : jsstring) : option N :=
  match k with
  | [] => None
  | [48] => Some 0
  | 48 :: _ => None
  | _ => match numeral 0 k with
         | Some n => if n <? 4294967295 then Some n else None
         | None => None
         end
  end.

Definition index {A} (l : list A) (k : jsstring) : option A :=
  match array_index k with
  | Some n => if n <? N.of_nat (length l) then nth_error l (N.to_nat n) else None
  | None => None
  end.

(** A property read [v.k] or [v[k]].  Own members, array elements, the
    code units of a string and [length] are found; the script reads no
    other inherited property through it ([forEach] is a call, see
    [forEach]). *)
Definition get (v : value) (k : jsstring) : result value :=
  match v with
  | VUndefined | VNull => Throw TypeError
  | VObject m => Ok (match own k m with Some x => x | None => VUndefined end)
  | VArray l =>
      if eqb k (lit "length") then Ok (VNumber (number_of_nat (length l)))
      else Ok (match index l k with Some x => x | None => VUndefined end)
  | VString s =>
      if eqb k (lit "length") then Ok (VNumber (number_of_nat (length s)))
      else Ok (match index s k with Some c => VString [c] | None => VUndefined end)
  | VBool _ | VNumber _ => Ok VUndefined
  end.

(** [v === 0]. *)
Definition is_zero (v : value) : bool :=
  match v with
  | VNumber n => num_zero n
  | _ => false
  end.

(** The names of the members, each once, in order of first occurrence. *)
Definition names (m : members_t) : list jsstring :=
  rev (nodup (list_eq_dec N.eq_dec) (rev (map fst m))).

Definition is_index (k : jsstring) : bool :=
  match array_index k with Some _ => true | None => false end.

Definition index_le (a b : jsstring) : bool :=
  match array_index a, array_index b with
  | Some x, Some y => x <=? y
  | _, _ => true
  end.

(** The own keys of an object in the order every enumeration follows:
    array indices first, ascending, then the other names as created. *)
Definition own_keys (m : members_t) : list jsstring :=
  sort index_le (filter is_index (names m))
    ++ filter (fun k => negb (is_index k)) (names m).

(** [Object.keys(v)]. *)
Definition Object_keys (v : value) : result (list jsstring) :=
  match v with
  | VUndefined | VNull => Throw TypeError
  | VObject m => Ok (own_keys m)
  | VArray l => Ok (map of_nat (seq 0 (length l)))
  | VString s => Ok (map of_nat (seq 0 (length s)))
  | VBool _ | VNumber _ => Ok []
  end.

(** [Object.entries(v)]: each key with the value read under it. *)
Fixpoint read_all (v : value) (ks : list jsstring)
  : result (list (jsstring * value)) :=
  match ks with
  | [] => Ok []
  | k :: ks' => x <- get v k;; r <- read_all v ks';; Ok ((k, x) :: r)
  end.

Definition Object_entries (v : value) : result (list (jsstring * value)) :=
  ks <- Object_keys v;; read_all v ks.

(** [encodeURIComponent(v)]: the string form of [v], where every code
    point outside letters, digits and [-_.!~*'()] is replaced by the
    percent-escapes of its UTF-8 octets.  A surrogate without its partner
    is no code point: the call throws a [URIError]. *)
Definition unescaped (c : code_unit) : bool :=
  ((65 <=? c) && (c <=? 90)) || ((97 <=? c) && (c <=? 122))
  || ((48 <=? c) && (c <=? 57)) || existsb (N.eqb c) (lit "-_.!~*'()").

Definition is_high_surrogate (c : code_unit) : bool :=
  (55296 <=? c) && (c <=? 56319).

Definition is_low_surrogate (c : code_unit) : bool :=
  (56320 <=? c) && (c <=? 57343).

Definition utf8 (cp : N) : list N :=
  if cp <? 128 then [cp]
  else if cp <? 2048 then [192 + cp / 64; 128 + cp mod 64]
  else if cp <? 65536
  then [224 + cp / 4096; 128 + (cp / 64) mod 64; 128 + cp mod 64]
  else [240 + cp / 262144; 128 + (cp / 4096) mod 64;
        128 + (cp / 64) mod 64; 128 + cp mod 64].

Definition hex_digit (n : N) : code_unit :=
  if n <? 10 then 48 + n else 55 + n.

Definition percent (octet : N) : jsstring :=
  [37; hex_digit (octet / 16); hex_digit (octet mod 16)].

Definition escape_code_point (cp : N) : jsstring :=
  flat_map percent (utf8 cp).

Fixpoint Encode (s : jsstring) : result jsstring :=
  match s with
  | [] => Ok []
  | c :: s' =>
      if unescaped c then r <- Encode s';; Ok (c :: r)
      else if is_high_surrogate c then
        match s' with
        | d :: s'' =>
            if is_low_surrogate d
            then r <- Encode s'';;
                 Ok (escape_code_point
                       ((c - 55296) * 1024 + (d - 56320) + 65536) ++ r)
            else Throw URIError
        | [] => Throw URIError
        end
      else if is_low_surrogate c then Throw URIError
      else r <- Encode s';; Ok (escape_code_point c ++ r)
  end.

Definition encodeURIComponent (v : value) : result jsstring :=
  s <- ToString v;; Encode s.

(** ** The page *)

(** A result card, the [button] element [doSearch] builds for a record.
    Its click listener closes over the record. *)
Record card : Type := Card {
  card_type : jsstring;
  className : jsstring;
  card_html : jsstring;
  record : value
}.

(** A panel shows the markup last assigned to its [innerHTML], followed by
    the elements appended since. *)
Record panel : Type := Panel {
  innerHTML : jsstring;
  appended : list card
}.

(** The page: the value of the query box ([None] when the element has no
    [value]), the three panels, and the URLs passed to [fetch] so far. *)
Record page : Type := Page {
  q_value : option jsstring;
  resultsEl : panel;
  detailsEl : panel;
  insightsEl : panel;
  fetched : list jsstring
}.

(** Handlers run on the page and may throw; what they did to the page
    before throwing stays done. *)
Definition M (A : Type) : Type := page -> result A * page.

Definition ret {A} (a : A) : M A := fun p => (Ok a, p).

Definition lift {A} (r : result A) : M A := fun p => (r, p).

Definition and_then {A B} (m : M A) (k : A -> M B) : M B :=
  fun p =>
    match m p with
    | (Ok a, p') => k a p'
    | (Throw e, p') => (Throw e, p')
    end.

Notation "x <~ m ;;; k" := (and_then m (fun x => k))
  (at level 61, m at next level, right associativity).
Notation "m ;;; k" := (and_then m (fun _ => k))
  (at level 61, right associativity).

Definition set_results (s : jsstring) : M unit := fun p =>
  (Ok tt, Page (q_value p) (Panel s []) (detailsEl p) (insightsEl p) (fetched p)).

Definition set_details (s : jsstring) : M unit := fun p =>
  (Ok tt, Page (q_value p) (resultsEl p) (Panel s []) (insightsEl p) (fetched p)).

Definition set_insights (s : jsstring) : M unit := fun p =>
  (Ok tt, Page (q_value p) (resultsEl p) (detailsEl p) (Panel s []) (fetched p)).

Definition append_result (c : card) : M unit := fun p =>
  (Ok tt,
   Page (q_value p)
        (Panel (innerHTML (resultsEl p)) (appended (resultsEl p) ++ [c]))
        (detailsEl p) (insightsEl p) (fetched p)).

Definition fetch (url : jsstring) : M unit := fun p =>
  (Ok tt,
   Page (q_value p) (resultsEl p) (detailsEl p) (insightsEl p)
        (fetched p ++ [url])).

(** How a [fetch] settles: rejected, or fulfilled with a response that is
    ok or not and whose body parses as JSON or does not. *)
Record response : Type := Response { ok : bool; body : option value }.

Inductive settled : Type :=
| Rejected
| Fulfilled (r : response).

Definition json (r : response) : result value :=
  match body r with
  | Some v => Ok v
  | None => Throw SyntaxError
  end.

(** [fetch(..).then(f).then(g).catch(h)]: [h] runs when the request is
    rejected and when [f] or [g] throws. *)
Definition then_then_catch (f : response -> result value)
    (g : value -> M unit) (h : M unit) (s : settled) : M unit :=
  fun p =>
    match s with
    | Rejected => h p
    | Fulfilled r =>
        match f r with
        | Throw _ => h p
        | Ok data =>
            match g data p with
            | (Ok tt, p') => (Ok tt, p')
            | (Throw _, p') => h p'
            end
        end
    end.

(** The first callback of all three chains. *)
Definition on_response (message : jsstring) (r : response) : result value :=
  if negb (ok r) then Throw (Error message) else json r.

(** ** The script *)

(** [escapeHtml]: the table of the replacement callback, the character
    class of the pattern, and the global replace over the string form. *)
Definition entities : list (code_unit * jsstring) :=
  [(38, lit "&amp;"); (60, lit "&lt;"); (62, lit "&gt;");
   (34, lit "&quot;"); (39, lit "&#039;")].

Fixpoint entity (table : list (code_unit * jsstring)) (c : code_unit)
  : jsstring :=
  match table with
  | [] => lit "undefined"
  | (c', e) :: table' => if c =? c' then e else entity table' c
  end.

Definition special (c : code_unit) : bool :=
  existsb (N.eqb c) [38; 60; 62; 34; 39].

Fixpoint replace (s : jsstring) : jsstring :=
  match s with
  | [] => []
  | c :: s' => (if special c then entity entities c else [c]) ++ replace s'
  end.

Definition escapeHtml (v : value) : result jsstring :=
  s <- ToString v;; Ok (replace s).

(** [xs.map(f)] with a callback that may throw. *)
Fixpoint map_result {A B} (f : A -> result B) (l : list A)
  : result (list B) :=
  match l with
  | [] => Ok []
  | x :: l' => y <- f x;; r <- map_result f l';; Ok (y :: r)
  end.

(** [xs.forEach(f)]: a call of a method only arrays have. *)
Fixpoint for_each {A} (f : A -> M unit) (l : list A) : M unit :=
  match l with
  | [] => ret tt
  | x :: l' => f x ;;; for_each f l'
  end.

Definition forEach (v : value) (f : value -> M unit) : M unit :=
  match v with
  | VArray l => for_each f l
  | VUndefined | VNull | VBool _ | VNumber _ | VString _ | VObject _ =>
      lift (Throw TypeError)
  end.

Definition mini_row (pair : jsstring * value) : result jsstring :=
  k <- escapeHtml (VString (fst pair));;
  v <- escapeHtml (snd pair);;
  Ok (html "<div class='mini-row'><span>" ++ k ++ html "</span><b>" ++ v
        ++ html "</b></div>").

Definition renderMiniList (obj : value) : result jsstring :=
  entries <- Object_entries (or_else obj (VObject []));;
  match entries with
  | [] => Ok (html "<div class='muted'>No data.</div>")
  | _ :: _ =>
      rows <- map_result mini_row entries;;
      Ok (html "
      <div class='mini-list'>
        " ++ concat rows ++ html "
      </div>
    ")
  end.

(** [escapeHtml(data.k)]. *)
Definition field (data : value) (k : string) : result jsstring :=
  v <- get data (lit k);; escapeHtml v.

(** [escapeHtml(data.k || d)]. *)
Definition field_or (data : value) (k : string) (d : jsstring)
  : result jsstring :=
  v <- get data (lit k);; escapeHtml (or_else v (VString d)).

(** [renderMiniList(data.k)]. *)
Definition mini (data : value) (k : string) : result jsstring :=
  v <- get data (lit k);; renderMiniList v.

(** The markup of the dashboard, the template of [loadInsights]. *)
Definition insights_markup (data : value) : result jsstring :=
  total_records <- field data "total_records";;
  total_amount <- field data "total_amount";;
  missing_email_pct <- field data "missing_email_pct";;
  missing_phone_pct <- field data "missing_phone_pct";;
  duplicate_emails <- field data "duplicate_emails";;
  duplicate_phones <- field data "duplicate_phones";;
  top_events <- mini data "top_events";;
  top_payment_status <- mini data "top_payment_status";;
  Ok (html "
          <div class='insight-grid'>
            <div class='insight'>
              <div class='insight-k'>Total records</div>
              <div class='insight-v'>" ++ total_records ++ html "</div>
            </div>
            <div class='insight'>
              <div class='insight-k'>Total amount</div>
              <div class='insight-v'>$" ++ total_amount ++ html "</div>
            </div>
            <div class='insight'>
              <div class='insight-k'>Missing email</div>
              <div class='insight-v'>" ++ missing_email_pct ++ html "%</div>
            </div>
            <div class='insight'>
              <div class='insight-k'>Missing phone</div>
              <div class='insight-v'>" ++ missing_phone_pct ++ html "%</div>
            </div>
            <div class='insight'>
              <div class='insight-k'>Duplicate emails</div>
              <div class='insight-v'>" ++ duplicate_emails ++ html "</div>
            </div>
            <div class='insight'>
              <div class='insight-k'>Duplicate phones</div>
              <div class='insight-v'>" ++ duplicate_phones ++ html "</div>
            </div>
          </div>

          <div class='insight-sep'></div>

          <div class='mini'>
            <div class='mini-title'>Top events</div>
            " ++ top_events ++ html "
          </div>

          <div class='mini' style='margin-top:12px;'>
            <div class='mini-title'>Payment status</div>
            " ++ top_payment_status ++ html "
          </div>
        ").

Definition insights_failed : jsstring :=
  html "<div class='muted'>Couldn’t load insights.</div>".

(** [loadInsights], up to the call of [fetch]. *)
Definition loadInsights : M unit :=
  set_insights (lit "Loading...") ;;;
  fetch (lit "/api/insights").

(** The callbacks [loadInsights] leaves on the request. *)
Definition loadInsights_data (data : value) : M unit :=
  markup <~ lift (insights_markup data) ;;;
  set_insights markup.

Definition loadInsights_settled : settled -> M unit :=
  then_then_catch (on_response (lit "Could not load insights."))
    loadInsights_data (set_insights insights_failed).

(** The markup of a result card, the template in [doSearch]. *)
Definition card_markup (record : value) : result jsstring :=
  name <- field_or record "name" (lit "(no name)");;
  payment_status <- field_or record "payment_status" (lit "—");;
  email <- field_or record "email" (lit "(no email)");;
  phone <- field_or record "phone" (lit "(no phone)");;
  event_name <- field_or record "event_name" [];;
  amount <- (a <- get record (lit "amount");;
             if truthy a then e <- escapeHtml a;; Ok (lit "• " ++ e)
             else Ok []);;
  source <- field_or record "source" [];;
  Ok (html "
            <div class='result-top'>
              <div class='result-name'>" ++ name ++ html "</div>
              <div class='pill'>" ++ payment_status ++ html "</div>
            </div>
            <div class='result-sub'>" ++ email ++ html " • " ++ phone ++ html "</div>
            <div class='result-sub'>" ++ event_name ++ html " " ++ amount ++ html "</div>
            <div class='result-meta'>" ++ source ++ html "</div>
          ").

(** The callback of [data.results.forEach]. *)
Definition add_card (record : value) : M unit :=
  markup <~ lift (card_markup record) ;;;
  append_result (Card (lit "button") (lit "result-card") markup record).

Definition search_failed : jsstring :=
  html "<div class='muted'>Couldn’t run search right now.</div>".

Definition no_matches : jsstring :=
  html "<div class='muted'>No matches.</div>".

Definition click_hint : jsstring :=
  html "<div class='muted'>Click a result to see full fields.</div>".

(** [!data.results || data.results.length === 0]. *)
Definition no_results (data : value) : result bool :=
  results <- get data (lit "results");;
  if negb (truthy results) then Ok true
  else len <- get results (lit "length");; Ok (is_zero len).

(** [doSearch], up to the call of [fetch]. *)
Definition doSearch : M unit := fun p =>
  let q := match q_value p with
           | Some v => if truthy (VString v) then trim v else []
           | None => []
           end in
  if negb (truthy (VString q)) then (Ok tt, p)
  else
    (set_results (lit "Searching...") ;;;
     set_details click_hint ;;;
     e <~ lift (encodeURIComponent (VString q)) ;;;
     fetch (lit "/api/search?q=" ++ e ++ lit "&limit=25")) p.

(** The callbacks [doSearch] leaves on the request. *)
Definition doSearch_data (data : value) : M unit :=
  set_results [] ;;;
  none <~ lift (no_results data) ;;;
  if (none : bool) then set_results no_matches
  else
    results <~ lift (get data (lit "results")) ;;;
    forEach results add_card.

Definition doSearch_settled : settled -> M unit :=
  then_then_catch (on_response (lit "Search request failed."))
    doSearch_data (set_results search_failed).

(** The head of the details markup, the template of [loadDetails] that
    the rows are then added to. *)
Definition details_head (data : value) : result jsstring :=
  name <- field_or data "name" [];;
  email <- field_or data "email" [];;
  phone <- field_or data "phone" [];;
  payment_status <- field_or data "payment_status" (lit "—");;
  source_file <- field data "source_file";;
  row_num <- field data "row_num";;
  event_name <- field_or data "event_name" (lit "—");;
  activity_type <- field_or data "activity_type" (lit "—");;
  activity_date <- field_or data "activity_date" (lit "—");;
  amount <- field_or data "amount" (lit "—");;
  Ok (html "
          <div class='details-head'>
            <div>
              <div class='details-title'>" ++ name ++ html "</div>
              <div class='details-sub'>" ++ email ++ html " • " ++ phone ++ html "</div>
            </div>
            <div class='details-tag'>" ++ payment_status ++ html "</div>
          </div>

          <div class='details-meta'>
            Source: " ++ source_file ++ html ":" ++ row_num ++ html "
          </div>

          <div class='details-mini'>
            <div><span>Event</span><b>" ++ event_name ++ html "</b></div>
            <div><span>Type</span><b>" ++ activity_type ++ html "</b></div>
            <div><span>Date</span><b>" ++ activity_date ++ html "</b></div>
            <div><span>Amount</span><b>" ++ amount ++ html "</b></div>
          </div>

          <div class='details-divider'></div>

          <div class='kv'>
        ").

(** One key/value row, the template in [keys.forEach]. *)
Definition kv_row (raw : value) (key : jsstring) : result jsstring :=
  k <- escapeHtml (VString key);;
  x <- get raw key;;
  s <- ToString (coalesce x (VString []));;
  v <- escapeHtml (VString s);;
  Ok (html "<div class='k'>" ++ k ++ html "</div><div class='v'>" ++ v
        ++ html "</div>").

(** [keys.forEach(function (key) { html += .. })]. *)
Fixpoint add_rows (raw : value) (keys : list jsstring) (markup : jsstring)
  : result jsstring :=
  match keys with
  | [] => Ok markup
  | key :: keys' => row <- kv_row raw key;; add_rows raw keys' (markup ++ row)
  end.

Definition details_markup (data : value) : result jsstring :=
  r <- get data (lit "raw");;
  let raw := or_else r (VObject []) in
  ks <- Object_keys raw;;
  let keys := sort leb ks in
  head <- details_head data;;
  markup <- add_rows raw keys head;;
  Ok (markup ++ html "</div>").

Definition details_failed : jsstring :=
  html "<div class='muted'>Couldn’t load this record.</div>".

(** [loadDetails], up to the call of [fetch]. *)
Definition loadDetails (id : value) : M unit :=
  set_details (lit "Loading...") ;;;
  e <~ lift (encodeURIComponent id) ;;;
  fetch (lit "/api/record?record_id=" ++ e).

(** The callbacks [loadDetails] leaves on the request. *)
Definition loadDetails_data (data : value) : M unit :=
  error <~ lift (get data (lit "error")) ;;;
  if truthy error then
    message <~ lift (escapeHtml error) ;;;
    set_details (html "<div class='muted'>" ++ message ++ html "</div>")
  else
    markup <~ lift (details_markup data) ;;;
    set_details markup.

Definition loadDetails_settled : settled -> M unit :=
  then_then_catch (on_response (lit "Record request failed."))
    loadDetails_data (set_details details_failed).

(** [setupSearchPage]: unless all five elements were found nothing is
    done; otherwise the insights are loaded and the listeners below are
    put in place. *)
Definition setupSearchPage (found : bool) : M unit :=
  if negb found then ret tt else loadInsights.

(** The listeners: a click on the button, a key pressed in the query box,
    a click on a result card. *)
Definition button_click : M unit := doSearch.

Definition keydown (key : jsstring) : M unit :=
  if eqb key (lit "Enter") then doSearch else ret tt.

Definition card_click (c : card) : M unit :=
  id <~ lift (get (record c) (lit "id")) ;;;
  loadDetails id.

(** ** Which values have a string form *)

(** [stringable v]: [String(v)] does not throw.  Only an object with a
    member named [toString], alone or inside arrays, fails. *)
Fixpoint stringable (v : value) : bool :=
  match v with
  | VArray l => forallb (fun x => stringable x) l
  | VObject m => negb (has_own (lit "toString") m)
  | VUndefined | VNull | VBool _ | VNumber _ | VString _ => true
  end.

Definition primitive (v : value) : bool :=
  match v with
  | VArray _ | VObject _ => false
  | VUndefined | VNull | VBool _ | VNumber _ | VString _ => true
  end.

(** Induction on values that reaches inside arrays and objects. *)
Section ValueInd.
Variable P : value -> Prop.
Hypothesis Hundefined : P VUndefined.
Hypothesis Hnull : P VNull.
Hypothesis Hbool : forall b, P (VBool b).
Hypothesis Hnumber : forall n, P (VNumber n).
Hypothesis Hstring : forall s, P (VString s).
Hypothesis Harray : forall l, Forall P l -> P (VArray l).
Hypothesis Hobject : forall m, Forall (fun kv => P (snd kv)) m -> P (VObject m).

Fixpoint value_nested_ind (v : value) : P v :=
  match v with
  | VUndefined => Hundefined
  | VNull => Hnull
  | VBool b => Hbool b
  | VNumber n => Hnumber n
  | VString s => Hstring s
  | VArray l =>
      Harray l
        ((fix all (l : list value) : Forall P l :=
            match l with
            | [] => Forall_nil P
            | x :: l' => Forall_cons x (value_nested_ind x) (all l')
            end) l)
  | VObject m =>
      Hobject m
        ((fix all (m : members_t) : Forall (fun kv => P (snd kv)) m :=
            match m with
            | [] => Forall_nil _
            | kv :: m' =>
                Forall_cons kv (value_nested_ind (snd kv)) (all m')
            end) m)
  end.
End ValueInd.

(** The [join] inside [ToString], by itself. *)
Fixpoint join (l : list value) : result jsstring :=
  match l with
  | [] => Ok []
  | x :: rest =>
      e <- (if nullish x then Ok [] else ToString x);;
      match rest with
      | [] => Ok e
      | _ :: _ => r <- join rest;; Ok (e ++ lit "," ++ r)
      end
  end.


(** ** Notions the properties are stated with *)

(** [escaped s out]: [out] is [s] with each of the five special characters
    replaced by its entity and every other code unit kept. *)
Inductive escaped : jsstring -> jsstring -> Prop :=
| escaped_nil : escaped [] []
| escaped_amp s out : escaped s out -> escaped (38 :: s) (lit "&amp;" ++ out)
| escaped_lt s out : escaped s out -> escaped (60 :: s) (lit "&lt;" ++ out)
| escaped_gt s out : escaped s out -> escaped (62 :: s) (lit "&gt;" ++ out)
| escaped_quot s out : escaped s out -> escaped (34 :: s) (lit "&quot;" ++ out)
| escaped_apos s out : escaped s out -> escaped (39 :: s) (lit "&#039;" ++ out)
| escaped_other c s out :
    ~ In c [38; 60; 62; 34; 39] -> escaped s out -> escaped (c :: s) (c :: out).

(** A string is well formed when every surrogate in it is half of a pair:
    a high one directly followed by a low one. *)
Fixpoint well_formed (s : jsstring) : bool :=
  match s with
  | [] => true
  | c :: s' =>
      if is_high_surrogate c then
        match s' with
        | d :: s'' => is_low_surrogate d && well_formed s''
        | [] => false
        end
      else negb (is_low_surrogate c) && well_formed s'
  end.

(** A request failed: it was rejected, or answered with a status that is
    not ok. *)
Definition failed (s : settled) : bool :=
  match s with
  | Rejected => true
  | Fulfilled r => negb (ok r)
  end.

(** A response answered ok with [data] as its body. *)
Definition answered (data : value) : settled :=
  Fulfilled (Response true (Some data)).

(** The fields [fields] of [data] can all be read and shown. *)
Definition displayable (data : value) (fields : list string) : bool :=
  forallb (fun k => match get data (lit k) with
                    | Ok v => stringable v
                    | Throw _ => false
                    end) fields.

Definition members_stringable (m : members_t) : bool :=
  forallb (fun kv => stringable (snd kv)) m.

(** What [renderMiniList] is given by a snapshot: nothing, or a map whose
    counts can be shown. *)
Definition countable (v : value) : bool :=
  match v with
  | VObject m => members_stringable m
  | _ => negb (truthy v)
  end.



(** [c] is the card of the record [r]. *)
Definition is_card (r : value) (c : card) : Prop :=
  card_type c = lit "button" /\ className c = lit "result-card" /\
  card_markup r = Ok (card_html c) /\ record c = r.

(** The fields each template reads. *)
Definition card_fields : list string :=
  ["name"; "payment_status"; "email"; "phone"; "event_name"; "amount";
   "source"]%string.

Definition details_fields : list string :=
  ["name"; "email"; "phone"; "payment_status"; "source_file"; "row_num";
   "event_name"; "activity_type"; "activity_date"; "amount"]%string.

Definition insight_fields : list string :=
  ["total_records"; "total_amount"; "missing_email_pct";
   "missing_phone_pct"; "duplicate_emails"; "duplicate_phones"]%string.

(** ** Further notions *)

(** Text that cannot open or close a tag or an attribute: it holds no
    [<], [>], double quote or apostrophe. *)
Definition inert (s : jsstring) : Prop :=
  ~ In 60 s /\ ~ In 62 s /\ ~ In 34 s /\ ~ In 39 s.

(** What a key of a mini list is read as. *)
Definition read (m : members_t) (k : jsstring) : value :=
  match own k m with
  | Some x => x
  | None => VUndefined
  end.

(** [row] is the row of [key] in the mini list of the object [m]. *)
Definition is_mini_row (m : members_t) (key row : jsstring) : Prop :=
  exists s,
    ToString (read m key) = Ok s /\
    row = html "<div class='mini-row'><span>" ++ replace key
            ++ html "</span><b>" ++ replace s ++ html "</b></div>".

(** Two pages that differ at most in the query box. *)
Definition same_panels (p1 p2 : page) : Prop :=
  resultsEl p1 = resultsEl p2 /\ detailsEl p1 = detailsEl p2 /\
  insightsEl p1 = insightsEl p2 /\ fetched p1 = fetched p2.

(** Code units are 16 bits wide. *)
Definition sixteen_bit (s : jsstring) : Prop := Forall (fun c => c < 65536) s.

(** What the dashboard shows for a figure: [text] is the escaped string
    form of the field [k] of the answer. *)
Definition is_figure (data : value) (k : string) (text : jsstring) : Prop :=
  exists v s,
    get data (lit k) = Ok v /\ ToString v = Ok s /\ escaped s text.

(** What the dashboard shows for a list of counts: the list block with
    the rows of the map when the map has members, the "No data." block
    when there is no map or the map is empty.  (A string or an array
    that is not empty is no map of counts and is left undescribed.) *)
Definition is_mini_list (v : value) (markup : jsstring) : Prop :=
  match v with
  | VObject ((_ :: _) as m) =>
      exists rows,
        Forall2 (is_mini_row m) (own_keys m) rows /\
        markup = html "
      <div class='mini-list'>
        " ++ concat rows ++ html "
      </div>
    "
  | VString (_ :: _) | VArray (_ :: _) => False
  | _ => markup = html "<div class='muted'>No data.</div>"
  end.
(** * Properties *)

(** ** Strings and values *)

Lemma eqb_eq a b : eqb a b = true <-> a = b.
Proof.
  unfold eqb. destruct (list_eq_dec N.eq_dec a b); split; congruence.
Qed.

Lemma eqb_refl a : eqb a a = true.
Proof. now apply eqb_eq. Qed.

Lemma ToString_array l : ToString (VArray l) = join l.
Proof.
  induction l as [|x rest IH]; [reflexivity|].
  change (ToString (VArray (x :: rest)))
    with (e <- match x with
               | VUndefined | VNull => Ok []
               | _ => ToString x
               end;;
          match rest with
          | [] => Ok e
          | _ :: _ => r <- ToString (VArray rest);; Ok (e ++ lit "," ++ r)
          end).
  rewrite IH. simpl join. destruct x; reflexivity.
Qed.

Lemma stringable_ToString v :
  stringable v = true <-> exists s, ToString v = Ok s.
Proof.
  induction v as [ | |b|n|s|l IH|m _] using value_nested_ind.
  1-2: split; [eexists; reflexivity | reflexivity].
  - split; [destruct b; eexists; reflexivity | reflexivity].
  - split; [eexists; reflexivity | reflexivity].
  - split; [eexists; reflexivity | reflexivity].
  - rewrite ToString_array. induction IH as [|x rest Hx _ IHrest].
    + split; [eexists; reflexivity | reflexivity].
    + cbn [stringable forallb] in *. rewrite andb_true_iff, Hx, IHrest.
      split.
      * intros [[s Hs] [r Hr]]. cbn [join]. rewrite Hr.
        destruct (nullish x); [|rewrite Hs]; destruct rest; eexists; reflexivity.
      * intros [s Hs]. cbn [join] in Hs.
        assert (Hx' : exists s, ToString x = Ok s).
        { destruct (nullish x) eqn:Hn.
          - destruct x; try discriminate Hn; eexists; reflexivity.
          - destruct (ToString x); [eauto | discriminate Hs]. }
        split; [exact Hx'|].
        destruct rest as [|y rest']; [eexists; reflexivity|].
        destruct (if nullish x then Ok [] else ToString x); [|discriminate].
        cbn [bind] in Hs. destruct (join (y :: rest')); [eauto|discriminate].
  - simpl. destruct (has_own (lit "toString") m); simpl; split;
      try discriminate; eauto. intros [s H]; discriminate.
Qed.

Lemma primitive_stringable v : primitive v = true -> stringable v = true.
Proof. destruct v; simpl; congruence. Qed.

Lemma falsy_stringable v : truthy v = false -> stringable v = true.
Proof. destruct v; simpl; congruence. Qed.

(** Literals: the apostrophes of a markup literal are double quotes, and
    the dash, the bullet and the curly apostrophe of the script are one
    code unit each. *)
Example html_quotes :
  html "<b class='k'>" = [60; 98; 32; 99; 108; 97; 115; 115; 61; 34; 107; 34; 62].
Proof. reflexivity. Qed.

Example lit_beyond_ascii :
  lit "—" = [8212] /\ lit "•" = [8226] /\ lit "’" = [8217].
Proof. repeat split. Qed.

(** ** The order of strings *)

Lemma ltb_irrefl a : ltb a a = false.
Proof.
  induction a as [|x a IH]; [reflexivity|].
  simpl. rewrite N.ltb_irrefl, N.eqb_refl, IH. reflexivity.
Qed.

Lemma ltb_trans a : forall b c,
  ltb a b = true -> ltb b c = true -> ltb a c = true.
Proof.
  induction a as [|x a IH]; intros [|y b] [|z c]; simpl; try congruence.
  rewrite !orb_true_iff, !andb_true_iff, !N.ltb_lt, !N.eqb_eq.
  intros [Hxy | [Hxy Hab]] [Hyz | [Hyz Hbc]].
  - left; lia.
  - left; lia.
  - left; lia.
  - right; split; [lia | eauto].
Qed.

Lemma ltb_total a : forall b,
  ltb a b = false -> ltb b a = false -> a = b.
Proof.
  induction a as [|x a IH]; intros [|y b]; simpl; try congruence.
  rewrite !orb_false_iff, !andb_false_iff, !N.ltb_ge, !N.eqb_neq.
  intros [Hxy Hab] [Hyx Hba].
  assert (x = y) by lia. subst y.
  f_equal. apply IH.
  - destruct Hab; [congruence | assumption].
  - destruct Hba; [congruence | assumption].
Qed.

Lemma leb_total a b : leb a b = false -> leb b a = true.
Proof.
  unfold leb. rewrite negb_false_iff, negb_true_iff. intros H.
  destruct (ltb a b) eqn:E; [|reflexivity].
  pose proof (ltb_irrefl a). pose proof (ltb_trans _ _ _ E H). congruence.
Qed.

Lemma leb_trans a b c : leb a b = true -> leb b c = true -> leb a c = true.
Proof.
  unfold leb. rewrite !negb_true_iff. intros Hba Hcb.
  destruct (ltb c a) eqn:Hca; [|reflexivity].
  destruct (ltb a b) eqn:Hab.
  - rewrite (ltb_trans _ _ _ Hca Hab) in Hcb. discriminate.
  - assert (a = b) by (apply ltb_total; assumption). subst b. congruence.
Qed.

(** ** Insertion sort *)

Section SortFacts.
Context {A : Type} (le : A -> A -> bool).

Lemma insert_perm x l : Permutation (insert le x l) (x :: l).
Proof.
  induction l as [|y l IH]; simpl; [reflexivity|].
  destruct (le x y); [reflexivity|].
  rewrite IH. apply perm_swap.
Qed.

Lemma sort_perm l : Permutation (sort le l) l.
Proof.
  induction l as [|x l IH]; simpl; [reflexivity|].
  rewrite insert_perm. now constructor.
Qed.

Hypothesis le_total : forall a b, le a b = false -> le b a = true.

Lemma insert_sorted x l :
  Sorted (fun a b => le a b = true) l ->
  Sorted (fun a b => le a b = true) (insert le x l).
Proof.
  induction 1 as [|y l Hl IH Hy]; simpl.
  - repeat constructor.
  - destruct (le x y) eqn:E.
    + repeat constructor; assumption.
    + constructor; [exact IH|].
      destruct Hy as [|z l Hyz]; simpl.
      * constructor. now apply le_total.
      * destruct (le x z); constructor; auto.
Qed.

Lemma sort_sorted l : Sorted (fun a b => le a b = true) (sort le l).
Proof.
  induction l as [|x l IH]; simpl; [constructor|].
  now apply insert_sorted.
Qed.
End SortFacts.

Lemma sort_leb_sorted ks :
  StronglySorted (fun a b => leb a b = true) (sort leb ks).
Proof.
  apply Sorted_StronglySorted.
  - intros a b c. apply leb_trans.
  - apply sort_sorted. apply leb_total.
Qed.

(** ** [escapeHtml] *)

Lemma special_cases c :
  special c = true -> c = 38 \/ c = 60 \/ c = 62 \/ c = 34 \/ c = 39.
Proof.
  unfold special. simpl. rewrite !orb_true_iff, !N.eqb_eq.
  intuition discriminate.
Qed.

Lemma special_false c : special c = false -> ~ In c [38; 60; 62; 34; 39].
Proof.
  unfold special. simpl. rewrite !orb_false_iff, !N.eqb_neq.
  intros H Hin. simpl in Hin. intuition congruence.
Qed.

Lemma replace_escaped s : escaped s (replace s).
Proof.
  induction s as [|c s IH]; simpl; [constructor|].
  destruct (special c) eqn:E.
  - apply special_cases in E.
    destruct E as [-> | [-> | [-> | [-> | ->]]]]; now constructor.
  - apply special_false in E. now constructor.
Qed.

Lemma replace_clean s c : In c [60; 62; 34; 39] -> ~ In c (replace s).
Proof.
  intros Hc. induction s as [|x s IH]; simpl; [tauto|].
  intros Hin. apply in_app_or in Hin. destruct Hin as [Hin | Hin]; [|tauto].
  destruct (special x) eqn:E.
  - apply special_cases in E.
    destruct E as [-> | [-> | [-> | [-> | ->]]]];
      cbv in Hin; cbv in Hc; intuition congruence.
  - apply special_false in E. destruct Hin as [-> | []].
    simpl in Hc, E. tauto.
Qed.

(** C9, as amended.  Whenever [String(value)] yields a string, [escapeHtml]
    returns that string with each [&], [<], [>], double quote and
    apostrophe replaced by its entity and every other code unit unchanged,
    and the output holds no [<], [>], double quote or apostrophe. *)
Theorem escapeHtml_escapes (v : value) (s : jsstring) :
  ToString v = Ok s ->
  exists out,
    escapeHtml v = Ok out /\ escaped s out /\
    ~ In 60 out /\ ~ In 62 out /\ ~ In 34 out /\ ~ In 39 out.
Proof.
  intros H. exists (replace s). unfold escapeHtml. rewrite H. simpl.
  split; [reflexivity|]. split; [apply replace_escaped|].
  repeat split; apply replace_clean; simpl; tauto.
Qed.

Lemma escapeHtml_escapes_witness :
  exists out,
    escapeHtml (VString (lit "R&D <b>'x'</b>")) = Ok out /\
    escaped (lit "R&D <b>'x'</b>") out /\
    ~ In 60 out /\ ~ In 62 out /\ ~ In 34 out /\ ~ In 39 out.
Proof. apply escapeHtml_escapes. reflexivity. Defined.

(** C9, as stated, fails: an object that has a member named [toString]
    has no string form, and [escapeHtml] throws instead of returning. *)
Lemma escapeHtml_throws :
  escapeHtml (VObject [(lit "toString", VNull)]) = Throw TypeError.
Proof. reflexivity. Qed.

(** [escapeHtml] returns exactly on the values that have a string form. *)
Lemma escapeHtml_ok v :
  stringable v = true <-> exists out, escapeHtml v = Ok out.
Proof.
  rewrite stringable_ToString. unfold escapeHtml. split.
  - intros [s ->]. simpl. eauto.
  - intros [out H]. destruct (ToString v); [eauto | discriminate].
Qed.

(** ** [renderMiniList] *)

(** C7.  Given [null], [undefined] or an object without members,
    [renderMiniList] returns the "No data." block and does not throw. *)
Theorem renderMiniList_empty :
  renderMiniList VNull = Ok (html "<div class='muted'>No data.</div>") /\
  renderMiniList VUndefined = Ok (html "<div class='muted'>No data.</div>") /\
  renderMiniList (VObject []) = Ok (html "<div class='muted'>No data.</div>").
Proof. repeat split. Qed.

Lemma renderMiniList_falsy obj :
  truthy obj = false ->
  renderMiniList obj = Ok (html "<div class='muted'>No data.</div>").
Proof.
  intros H. unfold renderMiniList, or_else. rewrite H. reflexivity.
Qed.

(** ** [encodeURIComponent] *)

Lemma unescaped_small c : unescaped c = true -> c < 128.
Proof.
  unfold unescaped.
  change (lit "-_.!~*'()") with [45; 95; 46; 33; 126; 42; 39; 40; 41].
  simpl. rewrite !orb_true_iff, !andb_true_iff, !N.leb_le, !N.eqb_eq.
  intuition (try discriminate; lia).
Qed.

Lemma unescaped_no_surrogate c :
  unescaped c = true ->
  is_high_surrogate c = false /\ is_low_surrogate c = false.
Proof.
  intros H. apply unescaped_small in H.
  unfold is_high_surrogate, is_low_surrogate.
  rewrite !andb_false_iff, !N.leb_gt. lia.
Qed.

(** [Encode] returns exactly on the well-formed strings. *)
Lemma Encode_well_formed_upto n : forall s,
  (length s <= n)%nat ->
  (well_formed s = true <-> exists e, Encode s = Ok e).
Proof.
  induction n as [|n IH]; intros [|c s] Hlen; simpl in Hlen; try lia;
    try (split; [eexists; reflexivity | reflexivity]).
  cbn [Encode well_formed].
  destruct (unescaped c) eqn:Hu.
  - destruct (unescaped_no_surrogate c Hu) as [-> ->]. simpl negb.
    rewrite andb_true_l, (IH s) by lia. split.
    + intros [e ->]. simpl. eauto.
    + intros [e He]. destruct (Encode s); [eauto | discriminate].
  - destruct (is_high_surrogate c).
    + destruct s as [|d s]; [split; [discriminate | intros [e H]; discriminate]|].
      destruct (is_low_surrogate d); simpl andb.
      * simpl in Hlen. rewrite (IH s) by lia. split.
        -- intros [e ->]. simpl. eauto.
        -- intros [e He]. destruct (Encode s); [eauto | discriminate].
      * split; [discriminate | intros [e H]; discriminate].
    + destruct (is_low_surrogate c); simpl negb.
      * split; [discriminate | intros [e H]; discriminate].
      * rewrite andb_true_l, (IH s) by lia. split.
        -- intros [e ->]. simpl. eauto.
        -- intros [e He]. destruct (Encode s); [eauto | discriminate].
Qed.

Lemma Encode_well_formed s :
  well_formed s = true <-> exists e, Encode s = Ok e.
Proof. apply (Encode_well_formed_upto (length s)). lia. Qed.

(** ** [doSearch] *)

Lemma trim_nil : trim [] = [].
Proof. reflexivity. Qed.

(** C2.  When the query box holds a string that trims to the empty
    string, [doSearch] returns at once: the page is left as it was, so no
    request is sent and the results and details panels keep their
    content. *)
Theorem doSearch_blank (p : page) (q : jsstring) :
  q_value p = Some q ->
  trim q = [] ->
  doSearch p = (Ok tt, p) /\
  fetched (snd (doSearch p)) = fetched p /\
  resultsEl (snd (doSearch p)) = resultsEl p /\
  detailsEl (snd (doSearch p)) = detailsEl p.
Proof.
  intros Hq Ht.
  assert (H : doSearch p = (Ok tt, p)).
  { unfold doSearch. rewrite Hq.
    destruct q as [|c q]; [reflexivity|]. cbn [truthy]. rewrite Ht.
    reflexivity. }
  rewrite H. repeat split.
Qed.

Lemma doSearch_blank_witness :
  let p := Page (Some (lit "   ")) (Panel (lit "old results") [])
             (Panel (lit "old details") []) (Panel [] []) [] in
  doSearch p = (Ok tt, p) /\
  fetched (snd (doSearch p)) = fetched p /\
  resultsEl (snd (doSearch p)) = resultsEl p /\
  detailsEl (snd (doSearch p)) = detailsEl p.
Proof.
  intros p. apply (doSearch_blank p (lit "   ")); reflexivity.
Defined.

Lemma doSearch_no_value p : q_value p = None -> doSearch p = (Ok tt, p).
Proof. intros H. unfold doSearch. rewrite H. reflexivity. Qed.

(** C8, as amended.  When the query box holds a string whose trimmed
    value is not empty and is well formed, [doSearch] marks the panels
    and sends exactly one request: [/api/search?q=] followed by the
    encoding of the trimmed value and by [&limit=25]. *)
Theorem doSearch_request (p : page) (q : jsstring) :
  q_value p = Some q ->
  trim q <> [] ->
  well_formed (trim q) = true ->
  exists e,
    Encode (trim q) = Ok e /\
    doSearch p =
      (Ok tt,
       Page (q_value p) (Panel (lit "Searching...") []) (Panel click_hint [])
            (insightsEl p)
            (fetched p ++ [lit "/api/search?q=" ++ e ++ lit "&limit=25"])).
Proof.
  intros Hq Ht Hw. apply Encode_well_formed in Hw. destruct Hw as [e He].
  exists e. split; [exact He|].
  destruct p as [qv results details insights urls]. cbn [q_value] in Hq.
  subst qv. unfold doSearch. cbn [q_value].
  destruct q as [|c q]; [now rewrite trim_nil in Ht|]. cbn [truthy].
  destruct (trim (c :: q)) as [|t ts] eqn:E; [congruence|]. cbn [truthy negb].
  unfold and_then, set_results, set_details, lift, fetch, encodeURIComponent.
  cbn [ToString bind]. rewrite He. reflexivity.
Qed.

Lemma doSearch_request_witness :
  exists e,
    Encode (trim (lit "  ali ce&  ")) = Ok e /\
    doSearch (Page (Some (lit "  ali ce&  ")) (Panel [] []) (Panel [] [])
                (Panel [] []) []) =
      (Ok tt,
       Page (Some (lit "  ali ce&  ")) (Panel (lit "Searching...") [])
            (Panel click_hint []) (Panel [] [])
            ([] ++ [lit "/api/search?q=" ++ e ++ lit "&limit=25"])).
Proof.
  apply (doSearch_request
           (Page (Some (lit "  ali ce&  ")) (Panel [] []) (Panel [] [])
              (Panel [] []) []) (lit "  ali ce&  "));
    [reflexivity | discriminate | reflexivity].
Defined.

Example search_url_example :
  fetched (snd (doSearch (Page (Some (lit "  ali ce&  ")) (Panel [] [])
                            (Panel [] []) (Panel [] []) []))) =
  [lit "/api/search?q=ali%20ce%26&limit=25"].
Proof. reflexivity. Qed.

(** C8, as stated, fails: a query that is a lone surrogate trims to a
    string that is not empty, yet [encodeURIComponent] throws on it, the
    error leaves [doSearch], and no request is sent. *)
Lemma doSearch_lone_surrogate :
  let p := Page (Some [55296]) (Panel [] []) (Panel [] []) (Panel [] []) [] in
  trim [55296] <> [] /\
  fst (doSearch p) = Throw URIError /\
  fetched (snd (doSearch p)) = [] /\
  innerHTML (resultsEl (snd (doSearch p))) = lit "Searching...".
Proof. repeat split. discriminate. Qed.

(** ** Requests that fail *)

Lemma then_then_catch_failed f g h s p message :
  f = on_response message ->
  failed s = true ->
  then_then_catch f g h s p = h p.
Proof.
  intros -> H. destruct s as [|r]; [reflexivity|].
  simpl in H. unfold then_then_catch, on_response. rewrite H. reflexivity.
Qed.

(** C10.  When the request of [loadInsights], [doSearch] or [loadDetails]
    is rejected or answered with a status that is not ok, the chain ends
    in its [catch] callback: the panel shows the fallback message, which
    is not the transient text, and nothing is thrown. *)
Theorem failed_request_fallback (s : settled) (p : page) :
  failed s = true ->
  (loadInsights_settled s p = (Ok tt, snd (set_insights insights_failed p)) /\
   innerHTML (insightsEl (snd (loadInsights_settled s p))) <> lit "Loading...") /\
  (doSearch_settled s p = (Ok tt, snd (set_results search_failed p)) /\
   innerHTML (resultsEl (snd (doSearch_settled s p))) <> lit "Searching...") /\
  (loadDetails_settled s p = (Ok tt, snd (set_details details_failed p)) /\
   innerHTML (detailsEl (snd (loadDetails_settled s p))) <> lit "Loading...").
Proof.
  intros H.
  unfold loadInsights_settled, doSearch_settled, loadDetails_settled.
  rewrite !(then_then_catch_failed _ _ _ s p _ eq_refl H).
  repeat split; discriminate.
Qed.

Lemma failed_request_fallback_witness :
  let s := Fulfilled (Response false None) in
  let p := Page None (Panel (lit "Searching...") []) (Panel (lit "Loading...") [])
             (Panel (lit "Loading...") []) [] in
  (loadInsights_settled s p = (Ok tt, snd (set_insights insights_failed p)) /\
   innerHTML (insightsEl (snd (loadInsights_settled s p))) <> lit "Loading...") /\
  (doSearch_settled s p = (Ok tt, snd (set_results search_failed p)) /\
   innerHTML (resultsEl (snd (doSearch_settled s p))) <> lit "Searching...") /\
  (loadDetails_settled s p = (Ok tt, snd (set_details details_failed p)) /\
   innerHTML (detailsEl (snd (loadDetails_settled s p))) <> lit "Loading...").
Proof.
  intros s p. apply (failed_request_fallback s p). reflexivity.
Defined.

(** ** Reading and showing fields *)

Lemma own_In k m v : own k m = Some v -> In (k, v) m.
Proof.
  induction m as [|[k' v'] m IH]; simpl; [discriminate|].
  destruct (own k m) as [x|].
  - intros [= ->]. right. now apply IH.
  - destruct (eqb k k') eqn:E; [|discriminate].
    apply eqb_eq in E. intros [= ->]. left. congruence.
Qed.

Lemma own_None k m : own k m = None <-> ~ In k (map fst m).
Proof.
  induction m as [|[k' v'] m IH]; simpl; [tauto|].
  destruct (own k m) as [x|].
  - split; [discriminate|]. intros H. exfalso. apply H. right.
    assert (Hx : ~ (Some x = None)) by discriminate. tauto.
  - destruct (eqb k k') eqn:E.
    + apply eqb_eq in E. split; [discriminate|]. intros H. exfalso. auto.
    + split; [|reflexivity]. intros _ [H | H]; [|tauto].
      subst k'. rewrite eqb_refl in E. discriminate.
Qed.

Lemma has_own_In k m : has_own k m = true <-> In k (map fst m).
Proof.
  unfold has_own. pose proof (own_None k m) as H.
  destruct (own k m).
  - split; [|reflexivity]. intros _.
    destruct (in_dec (list_eq_dec N.eq_dec) k (map fst m)) as [Hin | Hout];
      [exact Hin|]. apply H in Hout. discriminate.
  - split; [discriminate|]. intros Hin. exfalso. now apply H.
Qed.

Lemma members_stringable_own m k v :
  members_stringable m = true -> own k m = Some v -> stringable v = true.
Proof.
  unfold members_stringable. rewrite forallb_forall. intros H Hown.
  apply (H (k, v)). now apply own_In.
Qed.

Lemma displayable_get data ks k :
  displayable data ks = true -> In k ks ->
  exists v, get data (lit k) = Ok v /\ stringable v = true.
Proof.
  unfold displayable. rewrite forallb_forall. intros H Hin.
  specialize (H k Hin). destruct (get data (lit k)); [eauto | discriminate].
Qed.

Lemma or_else_stringable v d :
  stringable v = true -> stringable (or_else v (VString d)) = true.
Proof. unfold or_else. now destruct (truthy v). Qed.

Lemma field_displayable data ks k :
  displayable data ks = true -> In k ks -> exists s, field data k = Ok s.
Proof.
  intros H Hin. destruct (displayable_get _ _ _ H Hin) as (v & Hv & Hs).
  unfold field. rewrite Hv. simpl. now apply escapeHtml_ok.
Qed.

Lemma field_or_displayable data ks k d :
  displayable data ks = true -> In k ks -> exists s, field_or data k d = Ok s.
Proof.
  intros H Hin. destruct (displayable_get _ _ _ H Hin) as (v & Hv & Hs).
  unfold field_or. rewrite Hv. simpl.
  apply escapeHtml_ok. now apply or_else_stringable.
Qed.

Lemma map_result_ok {A B} (f : A -> result B) l :
  Forall (fun x => exists y, f x = Ok y) l ->
  exists ys, map_result f l = Ok ys /\ Forall2 (fun x y => f x = Ok y) l ys.
Proof.
  induction 1 as [|x l [y Hy] _ [ys [Hys HF]]]; simpl.
  - eauto.
  - rewrite Hy, Hys. simpl. eauto.
Qed.

(** ** [loadDetails]: an error answer *)

Lemma loadDetails_data_error data err message p :
  get data (lit "error") = Ok err ->
  truthy err = true ->
  ToString err = Ok message ->
  loadDetails_data data p =
    set_details (html "<div class='muted'>" ++ replace message
                   ++ html "</div>") p.
Proof.
  intros Hget Ht Hs. unfold loadDetails_data, and_then, lift.
  rewrite Hget, Ht. unfold escapeHtml. rewrite Hs. reflexivity.
Qed.

(** C3, as amended.  When the answer holds an error field that is truthy
    and has a string form (a message that is not empty, above all), the
    details panel shows the escaped message alone, whatever else the
    answer holds, and the chain completes without reaching its [catch]
    callback. *)
Theorem loadDetails_error (data err : value) (message : jsstring) (p : page) :
  get data (lit "error") = Ok err ->
  truthy err = true ->
  ToString err = Ok message ->
  loadDetails_settled (answered data) p =
    (Ok tt,
     snd (set_details (html "<div class='muted'>" ++ replace message
                         ++ html "</div>") p)) /\
  escaped message (replace message).
Proof.
  intros Hget Ht Hs. split; [|apply replace_escaped].
  unfold loadDetails_settled, then_then_catch, answered, on_response, json.
  cbn [ok body negb].
  rewrite (loadDetails_data_error data err message p Hget Ht Hs).
  reflexivity.
Qed.

Lemma loadDetails_error_witness :
  let data := VObject [(lit "error", VString (lit "Record <7> not found"));
                       (lit "name", VString (lit "Alice"))] in
  let p := Page None (Panel [] []) (Panel (lit "Loading...") []) (Panel [] []) [] in
  loadDetails_settled (answered data) p =
    (Ok tt,
     snd (set_details (html "<div class='muted'>"
                         ++ replace (lit "Record <7> not found")
                         ++ html "</div>") p)) /\
  escaped (lit "Record <7> not found") (replace (lit "Record <7> not found")).
Proof.
  intros data p.
  apply (loadDetails_error data (VString (lit "Record <7> not found"))
           (lit "Record <7> not found") p); reflexivity.
Defined.

(** C3, as stated, fails: an answer whose error field is the empty string
    is shown as a record, its name included, not as an error message. *)
Lemma loadDetails_empty_error :
  let data := VObject [(lit "error", VString []);
                       (lit "name", VString (lit "Alice"))] in
  let p := Page None (Panel [] []) (Panel (lit "Loading...") []) (Panel [] []) [] in
  has_own (lit "error") [(lit "error", VString []);
                         (lit "name", VString (lit "Alice"))] = true /\
  (exists head,
     details_head data = Ok head /\
     innerHTML (detailsEl (snd (loadDetails_settled (answered data) p))) =
       head ++ html "</div>") /\
  innerHTML (detailsEl (snd (loadDetails_settled (answered data) p))) <>
    html "<div class='muted'>" ++ replace [] ++ html "</div>".
Proof.
  intros data p. split; [reflexivity|]. split.
  - eexists. split; vm_compute; reflexivity.
  - vm_compute. discriminate.
Qed.

(** ** [doSearch]: the answer *)

(** C5.  When the answer is an object whose [results] is absent or an
    empty array, the results panel shows the "No matches." notice and no
    card, and the chain completes without throwing. *)
Theorem doSearch_no_matches (data results : value) (p : page) :
  get data (lit "results") = Ok results ->
  results = VUndefined \/ results = VArray [] ->
  doSearch_data data p = (Ok tt, snd (set_results no_matches p)) /\
  doSearch_settled (answered data) p = (Ok tt, snd (set_results no_matches p)) /\
  innerHTML (resultsEl (snd (doSearch_settled (answered data) p))) = no_matches /\
  appended (resultsEl (snd (doSearch_settled (answered data) p))) = [].
Proof.
  intros Hget Hres.
  assert (H : doSearch_data data p = (Ok tt, snd (set_results no_matches p))).
  { unfold doSearch_data, and_then, lift, no_results. cbn [set_results].
    rewrite Hget. destruct Hres as [-> | ->]; reflexivity. }
  assert (H' : doSearch_settled (answered data) p
               = (Ok tt, snd (set_results no_matches p))).
  { unfold doSearch_settled, then_then_catch, answered, on_response, json.
    cbn [ok body negb]. rewrite H. reflexivity. }
  rewrite H'. repeat split; assumption.
Qed.

Lemma doSearch_no_matches_witness :
  let data := VObject [(lit "results", VArray [])] in
  let p := Page (Some (lit "zz")) (Panel (lit "Searching...") [])
             (Panel click_hint []) (Panel [] []) [] in
  doSearch_data data p = (Ok tt, snd (set_results no_matches p)) /\
  doSearch_settled (answered data) p = (Ok tt, snd (set_results no_matches p)) /\
  innerHTML (resultsEl (snd (doSearch_settled (answered data) p))) = no_matches /\
  appended (resultsEl (snd (doSearch_settled (answered data) p))) = [].
Proof.
  intros data p.
  apply (doSearch_no_matches data (VArray []) p); [reflexivity | now right].
Defined.

Ltac listed := unfold card_fields, details_fields, insight_fields; simpl; tauto.

(** Reads the next field of a template whose fields are all displayable. *)
Ltac show_field H :=
  lazymatch goal with
  | |- context [bind (field_or ?r ?k ?d) _] =>
      let s := fresh "s" in
      let Hs := fresh "Hs" in
      assert (exists s, field_or r k d = Ok s) as [s Hs]
        by (eapply field_or_displayable; [exact H | listed]);
      rewrite Hs; cbn [bind]
  | |- context [bind (field ?r ?k) _] =>
      let s := fresh "s" in
      let Hs := fresh "Hs" in
      assert (exists s, field r k = Ok s) as [s Hs]
        by (eapply field_displayable; [exact H | listed]);
      rewrite Hs; cbn [bind]
  end.

Lemma card_markup_ok r :
  displayable r card_fields = true -> exists markup, card_markup r = Ok markup.
Proof.
  intros H. unfold card_markup.
  do 5 show_field H.
  destruct (displayable_get r card_fields "amount" H) as (a & Ha & Hsa);
    [listed|].
  rewrite Ha. cbn [bind].
  assert (exists e, (if truthy a then e <- escapeHtml a;; Ok (lit "• " ++ e)
                     else Ok []) = Ok e) as [e He].
  { destruct (truthy a); [|eauto].
    apply escapeHtml_ok in Hsa. destruct Hsa as [e ->]. simpl. eauto. }
  rewrite He. cbn [bind].
  show_field H. eauto.
Qed.

Lemma for_each_add_card rs : forall p,
  Forall (fun r => displayable r card_fields = true) rs ->
  exists cards,
    Forall2 is_card rs cards /\
    for_each add_card rs p =
      (Ok tt,
       Page (q_value p)
            (Panel (innerHTML (resultsEl p)) (appended (resultsEl p) ++ cards))
            (detailsEl p) (insightsEl p) (fetched p)).
Proof.
  induction rs as [|r rs IH]; intros p Hall.
  - exists []. split; [constructor|]. simpl. rewrite app_nil_r.
    destruct p as [? [? ?] ? ? ?]. reflexivity.
  - inversion Hall as [|? ? Hr Hrs]; subst.
    destruct (card_markup_ok r Hr) as [markup Hm].
    set (c := Card (lit "button") (lit "result-card") markup r).
    destruct (IH (snd (append_result c p)) Hrs) as (cards & Hcards & Hrun).
    exists (c :: cards). split.
    + constructor; [|exact Hcards]. unfold is_card, c. simpl. auto.
    + assert (Hadd : add_card r p = (Ok tt, snd (append_result c p))).
      { unfold add_card, and_then, lift. rewrite Hm. reflexivity. }
      cbn [for_each]. unfold and_then. rewrite Hadd, Hrun. cbn [append_result snd q_value resultsEl detailsEl
                           insightsEl fetched innerHTML appended].
      rewrite <- app_assoc. reflexivity.
Qed.

Lemma get_length_array rs :
  get (VArray rs) (lit "length") = Ok (VNumber (number_of_nat (length rs))).
Proof. reflexivity. Qed.

(** C4.  When the answer holds an array of results whose fields can be
    shown, the results panel ends with exactly the cards of the results:
    one card for each element, in the order of the array. *)
Theorem doSearch_cards (data : value) (rs : list value) (p : page) :
  get data (lit "results") = Ok (VArray rs) ->
  Forall (fun r => displayable r card_fields = true) rs ->
  exists cards,
    Forall2 is_card rs cards /\
    fst (doSearch_settled (answered data) p) = Ok tt /\
    appended (resultsEl (snd (doSearch_settled (answered data) p))) = cards.
Proof.
  intros Hget Hall.
  unfold doSearch_settled, then_then_catch, answered, on_response, json.
  cbn [ok body negb].
  destruct rs as [|r rs].
  - exists []. split; [constructor|].
    unfold doSearch_data, and_then, lift, no_results. cbn [set_results].
    rewrite Hget. split; reflexivity.
  - destruct (for_each_add_card (r :: rs) (snd (set_results [] p)) Hall)
      as (cards & Hcards & Hrun).
    exists cards. split; [exact Hcards|].
    assert (H : doSearch_data data p =
                for_each add_card (r :: rs) (snd (set_results [] p))).
    { assert (Hno : no_results data = Ok false).
      { unfold no_results. rewrite Hget. cbn [bind truthy negb].
        rewrite get_length_array. reflexivity. }
      unfold doSearch_data, and_then, lift. rewrite Hno, Hget. reflexivity. }
    rewrite H, Hrun. split; reflexivity.
Qed.

Lemma doSearch_cards_witness :
  let r1 := VObject [(lit "id", VString (lit "7")); (lit "name", VString (lit "Alice"))] in
  let r2 := VObject [(lit "id", VString (lit "9")); (lit "name", VString (lit "Bob"))] in
  let data := VObject [(lit "results", VArray [r1; r2])] in
  let p := Page (Some (lit "a")) (Panel (lit "Searching...") [])
             (Panel click_hint []) (Panel [] []) [] in
  exists cards,
    Forall2 is_card [r1; r2] cards /\
    fst (doSearch_settled (answered data) p) = Ok tt /\
    appended (resultsEl (snd (doSearch_settled (answered data) p))) = cards.
Proof.
  intros r1 r2 data p.
  apply (doSearch_cards data [r1; r2] p); [reflexivity|].
  repeat constructor.
Defined.

(** ** [loadInsights]: the answer *)

Lemma read_all_object m ks :
  read_all (VObject m) ks =
  Ok (map (fun k => (k, match own k m with Some x => x | None => VUndefined end))
        ks).
Proof.
  induction ks as [|k ks IH]; [reflexivity|].
  cbn [read_all get bind map]. rewrite IH. reflexivity.
Qed.

Lemma mini_row_ok k v :
  stringable v = true -> exists row, mini_row (k, v) = Ok row.
Proof.
  intros H. apply escapeHtml_ok in H. destruct H as [e He].
  unfold mini_row, escapeHtml. cbn [fst snd ToString bind].
  unfold escapeHtml in He. destruct (ToString v); [|discriminate].
  cbn [bind]. eauto.
Qed.

Lemma renderMiniList_countable v :
  countable v = true -> exists markup, renderMiniList v = Ok markup.
Proof.
  intros H.
  destruct (truthy v) eqn:Ht; [|rewrite renderMiniList_falsy; eauto].
  destruct v as [ | |b|n|s|l|m];
    try (unfold countable in H; rewrite Ht in H; discriminate).
  simpl in H.
  unfold renderMiniList, or_else, Object_entries.
  cbn [truthy Object_keys bind]. rewrite read_all_object. cbn [bind].
  destruct (map_result_ok mini_row
              (map (fun k => (k, match own k m with
                                 | Some x => x
                                 | None => VUndefined
                                 end)) (own_keys m))) as (rows & Hrows & _).
  { apply Forall_forall. intros [k x] Hin. apply in_map_iff in Hin.
    destruct Hin as (k' & [= <- <-] & _). apply mini_row_ok.
    destruct (own k' m) eqn:E; [|reflexivity].
    eapply members_stringable_own; eauto. }
  rewrite Hrows. cbn [bind].
  destruct (map _ (own_keys m)); eauto.
Qed.

(** ** The keys of an object *)

Lemma names_In k m : In k (names m) <-> has_own k m = true.
Proof.
  unfold names. rewrite <- in_rev, nodup_In, <- in_rev.
  symmetry. apply has_own_In.
Qed.

Lemma names_NoDup m : NoDup (names m).
Proof. unfold names. apply NoDup_rev, NoDup_nodup. Qed.

Lemma filter_split {A} (f : A -> bool) l :
  Permutation (filter f l ++ filter (fun x => negb (f x)) l) l.
Proof.
  induction l as [|x l IH]; simpl; [reflexivity|].
  destruct (f x); simpl.
  - now constructor.
  - rewrite <- Permutation_middle. now constructor.
Qed.

Lemma own_keys_perm m : Permutation (own_keys m) (names m).
Proof.
  unfold own_keys. rewrite sort_perm. apply filter_split.
Qed.

Lemma sorted_keys_In m k :
  In k (sort leb (own_keys m)) <-> has_own k m = true.
Proof.
  rewrite <- names_In. split; intros H.
  - eapply Permutation_in; [|exact H].
    rewrite sort_perm. apply own_keys_perm.
  - eapply Permutation_in; [|exact H].
    symmetry. rewrite sort_perm. apply own_keys_perm.
Qed.

Lemma sorted_keys_NoDup m : NoDup (sort leb (own_keys m)).
Proof.
  eapply Permutation_NoDup; [|apply names_NoDup].
  symmetry. rewrite sort_perm. apply own_keys_perm.
Qed.

(** ** [loadDetails]: a record *)







(** The rows follow the sorted keys, not the order of the raw map. *)
Example sorted_keys_example :
  sort leb (own_keys [(lit "b", VString (lit "x")); (lit "a", VNull);
                      (lit "B", VNumber (Number (lit "12") false))]) =
  [lit "B"; lit "a"; lit "b"].
Proof. reflexivity. Qed.

(** Values of the data model, strings, numbers and [null], can be shown. *)
Lemma primitive_members_stringable m :
  forallb (fun kv => primitive (snd kv)) m = true ->
  members_stringable m = true.
Proof.
  unfold members_stringable. rewrite !forallb_forall.
  intros H kv Hin. apply primitive_stringable. now apply H.
Qed.

(** * Further properties *)

(** ** [escapeHtml] loses nothing and leaves plain text alone *)

Lemma replace_cons_inv c1 c2 r1 r2 :
  (if special c1 then entity entities c1 else [c1]) ++ r1 =
  (if special c2 then entity entities c2 else [c2]) ++ r2 ->
  c1 = c2 /\ r1 = r2.
Proof.
  destruct (special c1) eqn:E1; destruct (special c2) eqn:E2.
  - apply special_cases in E1, E2.
    destruct E1 as [-> | [-> | [-> | [-> | ->]]]];
      destruct E2 as [-> | [-> | [-> | [-> | ->]]]];
      cbv [entity entities lit utf16 list_ascii_of_string map N_of_ascii
             N.eqb Pos.eqb N.ltb N.compare Pos.compare Pos.compare_cont app];
      intros H; try discriminate H; injection H; auto.
  - apply special_cases in E1.
    destruct E1 as [-> | [-> | [-> | [-> | ->]]]]; vm_compute app;
      intros H; injection H; intros; subst c2; discriminate E2.
  - apply special_cases in E2.
    destruct E2 as [-> | [-> | [-> | [-> | ->]]]]; vm_compute app;
      intros H; injection H; intros; subst c1; discriminate E1.
  - simpl. intros [= -> ->]. auto.
Qed.

Lemma replace_injective s1 : forall s2, replace s1 = replace s2 -> s1 = s2.
Proof.
  induction s1 as [|c1 s1 IH]; intros [|c2 s2]; cbn [replace]; intros H.
  - reflexivity.
  - exfalso. destruct (special c2) eqn:E.
    + apply special_cases in E.
      destruct E as [-> | [-> | [-> | [-> | ->]]]]; discriminate H.
    + discriminate H.
  - exfalso. destruct (special c1) eqn:E.
    + apply special_cases in E.
      destruct E as [-> | [-> | [-> | [-> | ->]]]]; discriminate H.
    + discriminate H.
  - apply replace_cons_inv in H. destruct H as [-> H]. f_equal. now apply IH.
Qed.

(** X1.  Two different strings are never escaped to the same text. *)
Theorem escapeHtml_distinct (s1 s2 : jsstring) :
  s1 <> s2 -> escapeHtml (VString s1) <> escapeHtml (VString s2).
Proof.
  intros Hne H. apply Hne. unfold escapeHtml in H. cbn [ToString bind] in H.
  apply replace_injective. congruence.
Qed.

Lemma escapeHtml_distinct_witness :
  escapeHtml (VString (lit "<")) <> escapeHtml (VString (lit "&lt;")).
Proof. apply escapeHtml_distinct. discriminate. Defined.

Lemma replace_length s : (length s <= length (replace s))%nat.
Proof.
  induction s as [|c s IH]; cbn [replace]; [lia|].
  rewrite length_app. destruct (special c) eqn:E.
  - apply special_cases in E.
    destruct E as [-> | [-> | [-> | [-> | ->]]]]; simpl; lia.
  - simpl. lia.
Qed.

(** X2.  [escapeHtml] returns a string as it is exactly when the string
    holds none of the five special characters. *)
Theorem escapeHtml_plain (s : jsstring) :
  escapeHtml (VString s) = Ok s <->
  Forall (fun c => ~ In c [38; 60; 62; 34; 39]) s.
Proof.
  unfold escapeHtml. cbn [ToString bind]. split.
  - intros [= H]. induction s as [|c s IH]; constructor.
    + cbn [replace] in H. destruct (special c) eqn:E;
        [|now apply special_false].
      exfalso. pose proof (replace_length s) as Hlen.
      apply (f_equal (@length _)) in H. rewrite length_app in H.
      apply special_cases in E.
      destruct E as [-> | [-> | [-> | [-> | ->]]]]; simpl in H; lia.
    + apply IH. cbn [replace] in H. destruct (special c) eqn:E.
      * exfalso. pose proof (replace_length s) as Hlen.
        apply (f_equal (@length _)) in H. rewrite length_app in H.
        apply special_cases in E.
        destruct E as [-> | [-> | [-> | [-> | ->]]]]; simpl in H; lia.
      * simpl in H. congruence.
  - intros H. f_equal. induction H as [|c s Hc _ IH]; [reflexivity|].
    cbn [replace]. rewrite IH.
    assert (E : special c = false).
    { destruct (special c) eqn:E; [|reflexivity].
      apply special_cases in E. simpl in Hc. exfalso. intuition congruence. }
    rewrite E. reflexivity.
Qed.

(** ** What [encodeURIComponent] lets through *)

Lemma hex_digit_unescaped n : n < 16 -> unescaped (hex_digit n) = true.
Proof.
  intros H.
  assert (Hn : In n [0; 1; 2; 3; 4; 5; 6; 7; 8; 9; 10; 11; 12; 13; 14; 15]).
  { simpl. lia. }
  simpl in Hn.
  repeat (destruct Hn as [<- | Hn]; [reflexivity|]). destruct Hn.
Qed.

Lemma percent_safe o :
  o < 256 -> Forall (fun c => unescaped c = true \/ c = 37) (percent o).
Proof.
  intros H. unfold percent.
  constructor; [now right|].
  constructor;
    [left; apply hex_digit_unescaped, N.Div0.div_lt_upper_bound; lia|].
  constructor; [left; apply hex_digit_unescaped, N.mod_lt; lia|].
  constructor.
Qed.

Lemma utf8_octets cp : cp < 2097152 -> Forall (fun o => o < 256) (utf8 cp).
Proof.
  intros H. unfold utf8.
  destruct (cp <? 128) eqn:E1; [apply N.ltb_lt in E1; repeat constructor; lia|].
  destruct (cp <? 2048) eqn:E2.
  { apply N.ltb_lt in E2.
    assert (cp / 64 < 32) by (apply N.Div0.div_lt_upper_bound; lia).
    assert (cp mod 64 < 64) by (apply N.mod_lt; lia).
    repeat constructor; lia. }
  destruct (cp <? 65536) eqn:E3.
  { apply N.ltb_lt in E3.
    assert (cp / 4096 < 16) by (apply N.Div0.div_lt_upper_bound; lia).
    assert ((cp / 64) mod 64 < 64) by (apply N.mod_lt; lia).
    assert (cp mod 64 < 64) by (apply N.mod_lt; lia).
    repeat constructor; lia. }
  assert (cp / 262144 < 8) by (apply N.Div0.div_lt_upper_bound; lia).
  assert ((cp / 4096) mod 64 < 64) by (apply N.mod_lt; lia).
  assert ((cp / 64) mod 64 < 64) by (apply N.mod_lt; lia).
  assert (cp mod 64 < 64) by (apply N.mod_lt; lia).
  repeat constructor; lia.
Qed.

Lemma escape_code_point_safe cp :
  cp < 2097152 ->
  Forall (fun c => unescaped c = true \/ c = 37) (escape_code_point cp).
Proof.
  intros H. unfold escape_code_point.
  pose proof (utf8_octets cp H) as Ho.
  induction Ho as [|o os Ho _ IH]; cbn [flat_map]; [constructor|].
  apply Forall_app. split; [now apply percent_safe | exact IH].
Qed.

Lemma Encode_safe_upto n : forall s e,
  (length s <= n)%nat ->
  sixteen_bit s ->
  Encode s = Ok e ->
  Forall (fun c => unescaped c = true \/ c = 37) e.
Proof.
  induction n as [|n IH]; intros [|c s] e Hlen Hbits; simpl in Hlen; try lia;
    try (intros [= <-]; constructor).
  inversion Hbits as [|? ? Hc Hs]; subst. cbn [Encode].
  destruct (unescaped c) eqn:Hu.
  - destruct (Encode s) as [r|] eqn:Hr; [|discriminate].
    intros [= <-]. constructor; [now left|].
    apply (IH s r); [lia | assumption | assumption].
  - destruct (is_high_surrogate c) eqn:Hh.
    + destruct s as [|d s]; [discriminate|].
      destruct (is_low_surrogate d) eqn:Hl; [|discriminate].
      destruct (Encode s) as [r|] eqn:Hr; [|discriminate].
      intros [= <-]. inversion Hs as [|? ? Hd Hs']; subst.
      apply Forall_app. split.
      * apply escape_code_point_safe.
        unfold is_high_surrogate, is_low_surrogate in Hh, Hl.
        rewrite andb_true_iff, !N.leb_le in Hh, Hl. lia.
      * apply (IH s r); [simpl in Hlen; lia | assumption | assumption].
    + destruct (is_low_surrogate c); [discriminate|].
      destruct (Encode s) as [r|] eqn:Hr; [|discriminate].
      intros [= <-]. apply Forall_app. split.
      * apply escape_code_point_safe. lia.
      * apply (IH s r); [lia | assumption | assumption].
Qed.

Lemma trim_start_Forall (P : code_unit -> Prop) s :
  Forall P s -> Forall P (trim_start s).
Proof.
  induction 1 as [|c s Hc Hs IH]; simpl; [constructor|].
  destruct (is_white_space c); [exact IH | now constructor].
Qed.

Lemma trim_Forall (P : code_unit -> Prop) s : Forall P s -> Forall P (trim s).
Proof.
  intros H. unfold trim.
  apply Forall_rev, trim_start_Forall, Forall_rev, trim_start_Forall, H.
Qed.

(** What [doSearch] does once the query is trimmed, by cases. *)
Lemma doSearch_cases p q :
  q_value p = Some q ->
  doSearch p =
    match trim q with
    | [] => (Ok tt, p)
    | _ :: _ =>
        match Encode (trim q) with
        | Ok e =>
            (Ok tt,
             Page (q_value p) (Panel (lit "Searching...") [])
                  (Panel click_hint []) (insightsEl p)
                  (fetched p ++ [lit "/api/search?q=" ++ e ++ lit "&limit=25"]))
        | Throw err =>
            (Throw err,
             Page (q_value p) (Panel (lit "Searching...") [])
                  (Panel click_hint []) (insightsEl p) (fetched p))
        end
    end.
Proof.
  intros Hq. destruct p as [qv results details insights urls].
  cbn [q_value] in Hq. subst qv. unfold doSearch. cbn [q_value].
  destruct q as [|c q]; [reflexivity|]. cbn [truthy].
  destruct (trim (c :: q)) as [|t ts] eqn:E; [reflexivity|]. cbn [truthy negb].
  unfold and_then, set_results, set_details, lift, fetch, encodeURIComponent.
  cbn [ToString bind]. destruct (Encode (t :: ts)); reflexivity.
Qed.

(** X3.  The text [doSearch] puts after [q=] is made of letters, digits,
    the marks [-_.!~*'()] and percent signs only: whatever is typed, the
    request has the two parameters [q] and [limit] and no other. *)
Theorem doSearch_query_safe (p : page) (q : jsstring) :
  q_value p = Some q ->
  sixteen_bit q ->
  trim q <> [] ->
  well_formed (trim q) = true ->
  exists e,
    fetched (snd (doSearch p)) =
      fetched p ++ [lit "/api/search?q=" ++ e ++ lit "&limit=25"] /\
    Forall (fun c => unescaped c = true \/ c = 37) e /\
    ~ In 38 e /\ ~ In 61 e /\ ~ In 35 e /\ ~ In 32 e.
Proof.
  intros Hq Hbits Hne Hw.
  apply Encode_well_formed in Hw. destruct Hw as [e He].
  exists e. rewrite (doSearch_cases p q Hq), He.
  destruct (trim q) as [|t ts] eqn:E; [congruence|]. cbn [snd fetched].
  split; [reflexivity|].
  assert (Hsafe : Forall (fun c => unescaped c = true \/ c = 37) e).
  { apply (Encode_safe_upto (length (t :: ts)) (t :: ts) e);
      [lia | | exact He].
    rewrite <- E. now apply trim_Forall. }
  split; [exact Hsafe|].
  rewrite Forall_forall in Hsafe.
  repeat split; intros Hin; apply Hsafe in Hin;
    destruct Hin as [Hin | Hin]; discriminate Hin.
Qed.

Lemma doSearch_query_safe_witness :
  let q := lit " a&b=c #d " in
  let p := Page (Some q) (Panel [] []) (Panel [] []) (Panel [] []) [] in
  exists e,
    fetched (snd (doSearch p)) =
      fetched p ++ [lit "/api/search?q=" ++ e ++ lit "&limit=25"] /\
    Forall (fun c => unescaped c = true \/ c = 37) e /\
    ~ In 38 e /\ ~ In 61 e /\ ~ In 35 e /\ ~ In 32 e.
Proof.
  intros q p. apply (doSearch_query_safe p q).
  - reflexivity.
  - unfold sixteen_bit. repeat constructor.
  - discriminate.
  - reflexivity.
Defined.

(** ** White space around the query *)

Lemma trim_start_blank a s :
  forallb is_white_space a = true -> trim_start (a ++ s) = trim_start s.
Proof.
  induction a as [|c a IH]; simpl; [reflexivity|].
  rewrite andb_true_iff. intros [-> Ha]. now apply IH.
Qed.

Lemma trim_start_nil s :
  trim_start s = [] <-> forallb is_white_space s = true.
Proof.
  induction s as [|c s IH]; simpl; [tauto|].
  destruct (is_white_space c); simpl; [exact IH|].
  split; discriminate.
Qed.

Lemma trim_start_app s b :
  trim_start s <> [] -> trim_start (s ++ b) = trim_start s ++ b.
Proof.
  induction s as [|c s IH]; simpl; [congruence|].
  destruct (is_white_space c); [exact IH | reflexivity].
Qed.

Lemma forallb_rev {A} (f : A -> bool) l :
  forallb f l = true -> forallb f (rev l) = true.
Proof.
  rewrite !forallb_forall. intros H x Hin. apply H. now apply in_rev.
Qed.

Lemma trim_padded a q b :
  forallb is_white_space a = true ->
  forallb is_white_space b = true ->
  trim (a ++ q ++ b) = trim q.
Proof.
  intros Ha Hb. unfold trim. rewrite (trim_start_blank a _ Ha).
  destruct (trim_start q) as [|t ts] eqn:E.
  - apply trim_start_nil in E.
    assert (H : trim_start (q ++ b) = []).
    { apply trim_start_nil. rewrite forallb_app, E, Hb. reflexivity. }
    rewrite H. reflexivity.
  - rewrite trim_start_app by congruence. rewrite E, rev_app_distr.
    rewrite (trim_start_blank (rev b)) by now apply forallb_rev.
    reflexivity.
Qed.

(** X4.  White space typed before or after the query changes nothing:
    [doSearch] ends the same way, sends the same request and leaves the
    panels the same. *)
Theorem doSearch_padding (p1 p2 : page) (q a b : jsstring) :
  q_value p1 = Some q ->
  q_value p2 = Some (a ++ q ++ b) ->
  forallb is_white_space a = true ->
  forallb is_white_space b = true ->
  same_panels p1 p2 ->
  fst (doSearch p1) = fst (doSearch p2) /\
  same_panels (snd (doSearch p1)) (snd (doSearch p2)).
Proof.
  intros H1 H2 Ha Hb (Hr & Hd & Hi & Hf).
  rewrite (doSearch_cases p1 q H1), (doSearch_cases p2 _ H2).
  rewrite (trim_padded a q b Ha Hb).
  destruct (trim q) as [|t ts]; [split; [reflexivity | repeat split; assumption]|].
  destruct (Encode (t :: ts)); cbn [fst snd]; split; try reflexivity;
    unfold same_panels; cbn [resultsEl detailsEl insightsEl fetched];
    rewrite ?Hi, ?Hf; repeat split.
Qed.

Lemma doSearch_padding_witness :
  let p1 := Page (Some (lit "ali")) (Panel [] []) (Panel [] []) (Panel [] []) [] in
  let p2 := Page (Some (lit "  " ++ lit "ali" ++ lit " ")) (Panel [] [])
              (Panel [] []) (Panel [] []) [] in
  fst (doSearch p1) = fst (doSearch p2) /\
  same_panels (snd (doSearch p1)) (snd (doSearch p2)).
Proof.
  intros p1 p2.
  apply (doSearch_padding p1 p2 (lit "ali") (lit "  ") (lit " "));
    try reflexivity.
  repeat split.
Defined.

(** ** A click on a result card *)

Lemma loadDetails_cases id p :
  loadDetails id p =
    match encodeURIComponent id with
    | Ok e =>
        (Ok tt,
         Page (q_value p) (resultsEl p) (Panel (lit "Loading...") [])
              (insightsEl p) (fetched p ++ [lit "/api/record?record_id=" ++ e]))
    | Throw err =>
        (Throw err,
         Page (q_value p) (resultsEl p) (Panel (lit "Loading...") [])
              (insightsEl p) (fetched p))
    end.
Proof.
  unfold loadDetails, and_then, set_details, lift, fetch.
  destruct (encodeURIComponent id); reflexivity.
Qed.

(** X5.  A click on the card of a record asks for that record: when the
    id of the record has a well-formed string form, exactly one request
    is sent, [/api/record?record_id=] followed by the encoded id; the
    details panel shows "Loading..." and the cards stay where they are. *)
Theorem card_click_request (r id : value) (c : card) (s : jsstring) (p : page) :
  is_card r c ->
  get r (lit "id") = Ok id ->
  ToString id = Ok s ->
  well_formed s = true ->
  exists e,
    Encode s = Ok e /\
    card_click c p =
      (Ok tt,
       Page (q_value p) (resultsEl p) (Panel (lit "Loading...") [])
            (insightsEl p) (fetched p ++ [lit "/api/record?record_id=" ++ e])).
Proof.
  intros (_ & _ & _ & Hrec) Hid Hs Hw.
  apply Encode_well_formed in Hw. destruct Hw as [e He]. exists e.
  split; [exact He|].
  unfold card_click, and_then at 1, lift. rewrite Hrec, Hid.
  rewrite loadDetails_cases. unfold encodeURIComponent.
  rewrite Hs. cbn [bind]. rewrite He. reflexivity.
Qed.

Lemma card_click_request_witness :
  let r := VObject [(lit "id", VString (lit "a 7")); (lit "name", VString (lit "Al"))] in
  let c := Card (lit "button") (lit "result-card")
             (match card_markup r with Ok m => m | Throw _ => [] end) r in
  let p := Page None (Panel [] [c]) (Panel click_hint []) (Panel [] []) [] in
  exists e,
    Encode (lit "a 7") = Ok e /\
    card_click c p =
      (Ok tt,
       Page (q_value p) (resultsEl p) (Panel (lit "Loading...") [])
            (insightsEl p) (fetched p ++ [lit "/api/record?record_id=" ++ e])).
Proof.
  intros r c p.
  apply (card_click_request r (VString (lit "a 7")) c (lit "a 7") p);
    try reflexivity.
  split; [reflexivity|]. split; [reflexivity|].
  split; [vm_compute; reflexivity | reflexivity].
Defined.

(** X6.  A record without an id still has a card, and a click on it asks
    for the record named [undefined]. *)
Theorem card_click_no_id (m : members_t) (c : card) (p : page) :
  is_card (VObject m) c ->
  own (lit "id") m = None ->
  card_click c p =
    (Ok tt,
     Page (q_value p) (resultsEl p) (Panel (lit "Loading...") [])
          (insightsEl p)
          (fetched p ++ [lit "/api/record?record_id=undefined"])).
Proof.
  intros (_ & _ & _ & Hrec) Hid.
  unfold card_click, and_then at 1, lift. rewrite Hrec. cbn [get].
  rewrite Hid. rewrite loadDetails_cases. reflexivity.
Qed.

Lemma card_click_no_id_witness :
  let m := [(lit "name", VString (lit "Al"))] in
  let c := Card (lit "button") (lit "result-card")
             (match card_markup (VObject m) with Ok x => x | Throw _ => [] end)
             (VObject m) in
  let p := Page None (Panel [] [c]) (Panel click_hint []) (Panel [] []) [] in
  card_click c p =
    (Ok tt,
     Page (q_value p) (resultsEl p) (Panel (lit "Loading...") [])
          (insightsEl p)
          (fetched p ++ [lit "/api/record?record_id=undefined"])).
Proof.
  intros m c p. apply (card_click_no_id m c p); [|reflexivity].
  split; [reflexivity|]. split; [reflexivity|].
  split; [vm_compute; reflexivity | reflexivity].
Defined.

(** ** What the callbacks can and cannot do *)

(** Takes the first step of a computation known to return. *)
Ltac step_bind H :=
  lazymatch type of H with
  | bind ?x _ = Ok _ =>
      let E := fresh "E" in
      destruct x eqn:E; cbn [bind] in H; [|discriminate H]
  end.

Lemma for_each_add_card_run rs : forall p res p',
  for_each add_card rs p = (res, p') ->
  exists cards,
    p' = Page (q_value p)
              (Panel (innerHTML (resultsEl p)) (appended (resultsEl p) ++ cards))
              (detailsEl p) (insightsEl p) (fetched p) /\
    (res = Ok tt -> Forall2 is_card rs cards).
Proof.
  induction rs as [|r rs IH]; intros p res p' H.
  - cbn [for_each] in H. unfold ret in H. injection H as <- <-.
    exists []. rewrite app_nil_r. destruct p as [? [? ?] ? ? ?].
    split; [reflexivity | constructor].
  - cbn [for_each] in H. unfold and_then at 1 in H.
    unfold add_card, and_then, lift in H.
    destruct (card_markup r) as [markup|e] eqn:Hm.
    + set (c := Card (lit "button") (lit "result-card") markup r) in *.
      cbn [append_result] in H.
      apply IH in H. destruct H as (cards & -> & Hcards).
      exists (c :: cards). cbn [q_value resultsEl detailsEl insightsEl fetched
                                 innerHTML appended].
      rewrite <- app_assoc. split; [reflexivity|].
      intros Hres. constructor; [|auto].
      unfold is_card, c. simpl. auto.
    + injection H as <- <-. exists []. rewrite app_nil_r.
      destruct p as [? [? ?] ? ? ?]. split; [reflexivity | discriminate].
Qed.

Lemma doSearch_data_run data p res p' :
  doSearch_data data p = (res, p') ->
  (q_value p' = q_value p /\ detailsEl p' = detailsEl p /\
   insightsEl p' = insightsEl p /\ fetched p' = fetched p) /\
  (res = Ok tt ->
   resultsEl p' = Panel no_matches [] \/
   exists rs,
     get data (lit "results") = Ok (VArray rs) /\
     innerHTML (resultsEl p') = [] /\
     Forall2 is_card rs (appended (resultsEl p'))).
Proof.
  unfold doSearch_data, and_then, lift. cbn [set_results].
  destruct (no_results data) as [[|]|e].
  - intros [= <- <-]. split; [repeat split|]. now left.
  - destruct (get data (lit "results")) as [v|e] eqn:Hget.
    + destruct v as [ | |b|n|s|rs|m]; cbn [forEach]; unfold lift;
        try (intros [= <- <-]; split; [repeat split | discriminate]).
      intros H. apply for_each_add_card_run in H.
      destruct H as (cards & -> & Hcards).
      split; [repeat split|]. intros Hres. right. exists rs.
      split; [reflexivity|]. split; [reflexivity|]. now apply Hcards.
    + intros [= <- <-]. split; [repeat split | discriminate].
  - intros [= <- <-]. split; [repeat split | discriminate].
Qed.

(** X7.  Cards are all or nothing.  However the search request settles,
    the results panel ends in one of three states: the failure message
    without cards, the "No matches." notice without cards, or no markup
    and one card for each element of the answer's results, in order.
    A list of cards is never cut short. *)
Theorem doSearch_settled_outcomes (s : settled) (p : page) :
  fst (doSearch_settled s p) = Ok tt /\
  (resultsEl (snd (doSearch_settled s p)) = Panel search_failed [] \/
   resultsEl (snd (doSearch_settled s p)) = Panel no_matches [] \/
   exists data rs,
     s = answered data /\
     get data (lit "results") = Ok (VArray rs) /\
     innerHTML (resultsEl (snd (doSearch_settled s p))) = [] /\
     Forall2 is_card rs (appended (resultsEl (snd (doSearch_settled s p))))).
Proof.
  unfold doSearch_settled, then_then_catch.
  destruct s as [|[[|] [data|]]]; cbn [on_response ok body negb json];
    try (split; [reflexivity | left; reflexivity]).
  destruct (doSearch_data data p) as [[[]|e] p'] eqn:Hrun.
  - apply doSearch_data_run in Hrun. destruct Hrun as [_ Hrun].
    split; [reflexivity|]. cbn [snd].
    destruct (Hrun eq_refl) as [H | (rs & Hget & Hin & Hcards)].
    + right. now left.
    + right. right. exists data, rs. auto.
  - split; [reflexivity | left; reflexivity].
Qed.

(** X8.  The callbacks of a search touch the results panel only: the
    query box, the other two panels and the list of requests are as
    before, however the request settles. *)
Theorem doSearch_settled_frame (s : settled) (p : page) :
  q_value (snd (doSearch_settled s p)) = q_value p /\
  detailsEl (snd (doSearch_settled s p)) = detailsEl p /\
  insightsEl (snd (doSearch_settled s p)) = insightsEl p /\
  fetched (snd (doSearch_settled s p)) = fetched p.
Proof.
  unfold doSearch_settled, then_then_catch.
  destruct s as [|[[|] [data|]]]; cbn [on_response ok body negb json];
    try solve [repeat split].
  destruct (doSearch_data data p) as [[[]|e] p'] eqn:Hrun;
    apply doSearch_data_run in Hrun;
    destruct Hrun as [(Hq & Hd & Hi & Hf) _]; cbn [snd set_results q_value
      detailsEl insightsEl fetched]; auto.
Qed.

Lemma add_rows_prefix raw keys : forall markup r,
  add_rows raw keys markup = Ok r -> exists t, r = markup ++ t.
Proof.
  induction keys as [|k keys IH]; intros markup r H; cbn [add_rows] in H.
  - injection H as <-. exists []. now rewrite app_nil_r.
  - step_bind H. apply IH in H. destruct H as [t ->].
    eexists. rewrite <- app_assoc. reflexivity.
Qed.

Lemma details_head_first data head :
  details_head data = Ok head -> exists t, head = 10 :: t.
Proof.
  unfold details_head. intros H. do 10 step_bind H.
  injection H as <-. eexists. reflexivity.
Qed.

Lemma details_markup_first data m :
  details_markup data = Ok m -> exists t, m = 10 :: t.
Proof.
  unfold details_markup. intros H. do 4 step_bind H. injection H as <-.
  apply details_head_first in E1. destruct E1 as [t ->].
  apply add_rows_prefix in E2. destruct E2 as [t' ->].
  eexists. reflexivity.
Qed.

Lemma insights_markup_first data m :
  insights_markup data = Ok m -> exists t, m = 10 :: t.
Proof.
  unfold insights_markup. intros H. do 8 step_bind H.
  injection H as <-. eexists. reflexivity.
Qed.

Lemma loadDetails_data_run data p res p' :
  loadDetails_data data p = (res, p') ->
  (q_value p' = q_value p /\ resultsEl p' = resultsEl p /\
   insightsEl p' = insightsEl p /\ fetched p' = fetched p) /\
  (res = Ok tt ->
   exists c t, detailsEl p' = Panel (c :: t) [] /\ (c = 60 \/ c = 10)) /\
  (res <> Ok tt -> p' = p).
Proof.
  unfold loadDetails_data, and_then, lift.
  destruct (get data (lit "error")) as [err|e];
    [|intros [= <- <-]; repeat split; congruence].
  destruct (truthy err).
  - destruct (escapeHtml err) as [message|e];
      [|intros [= <- <-]; repeat split; congruence].
    cbn [set_details]. intros [= <- <-].
    split; [repeat split|]. split; [|congruence].
    intros _. eexists _, _. split; [reflexivity | now left].
  - destruct (details_markup data) as [markup|e] eqn:Hm;
      [|intros [= <- <-]; repeat split; congruence].
    cbn [set_details]. intros [= <- <-].
    apply details_markup_first in Hm. destruct Hm as [t ->].
    split; [repeat split|]. split; [|congruence].
    intros _. eexists _, _. split; [reflexivity | now right].
Qed.

Lemma loadInsights_data_run data p res p' :
  loadInsights_data data p = (res, p') ->
  (q_value p' = q_value p /\ resultsEl p' = resultsEl p /\
   detailsEl p' = detailsEl p /\ fetched p' = fetched p) /\
  (res = Ok tt -> exists t, insightsEl p' = Panel (10 :: t) []) /\
  (res <> Ok tt -> p' = p).
Proof.
  unfold loadInsights_data, and_then, lift.
  destruct (insights_markup data) as [markup|e] eqn:Hm;
    [|intros [= <- <-]; repeat split; congruence].
  cbn [set_insights]. intros [= <- <-].
  apply insights_markup_first in Hm. destruct Hm as [t ->].
  split; [repeat split|]. split; [|congruence]. intros _.
  eexists. reflexivity.
Qed.

(** X9.  However the record request settles, the callbacks of
    [loadDetails] throw nothing, leave the details panel showing
    something other than "Loading...", and touch nothing but the details
    panel. *)
Theorem loadDetails_settled_safe (s : settled) (p : page) :
  fst (loadDetails_settled s p) = Ok tt /\
  innerHTML (detailsEl (snd (loadDetails_settled s p))) <> lit "Loading..." /\
  q_value (snd (loadDetails_settled s p)) = q_value p /\
  resultsEl (snd (loadDetails_settled s p)) = resultsEl p /\
  insightsEl (snd (loadDetails_settled s p)) = insightsEl p /\
  fetched (snd (loadDetails_settled s p)) = fetched p.
Proof.
  unfold loadDetails_settled, then_then_catch.
  destruct s as [|[[|] [data|]]]; cbn [on_response ok body negb json];
    try (repeat split; discriminate).
  destruct (loadDetails_data data p) as [[[]|e] p'] eqn:Hrun;
    apply loadDetails_data_run in Hrun;
    destruct Hrun as ((Hq & Hr & Hi & Hf) & Hok & Hthrow).
  - destruct (Hok eq_refl) as (c & t & Hd & Hc). cbn [fst snd].
    rewrite Hd. cbn [innerHTML].
    repeat split; try assumption.
    destruct Hc as [-> | ->]; discriminate.
  - rewrite Hthrow by discriminate. repeat split. discriminate.
Qed.

(** X10.  However the insights request settles, the callbacks of
    [loadInsights] throw nothing, leave the insights panel showing
    something other than "Loading...", and touch nothing but the insights
    panel. *)
Theorem loadInsights_settled_safe (s : settled) (p : page) :
  fst (loadInsights_settled s p) = Ok tt /\
  innerHTML (insightsEl (snd (loadInsights_settled s p))) <> lit "Loading..." /\
  q_value (snd (loadInsights_settled s p)) = q_value p /\
  resultsEl (snd (loadInsights_settled s p)) = resultsEl p /\
  detailsEl (snd (loadInsights_settled s p)) = detailsEl p /\
  fetched (snd (loadInsights_settled s p)) = fetched p.
Proof.
  unfold loadInsights_settled, then_then_catch.
  destruct s as [|[[|] [data|]]]; cbn [on_response ok body negb json];
    try (repeat split; discriminate).
  destruct (loadInsights_data data p) as [[[]|e] p'] eqn:Hrun;
    apply loadInsights_data_run in Hrun;
    destruct Hrun as ((Hq & Hr & Hd & Hf) & Hok & Hthrow).
  - destruct (Hok eq_refl) as (t & Hi). cbn [fst snd].
    rewrite Hi. cbn [innerHTML].
    repeat split; try assumption. discriminate.
  - rewrite Hthrow by discriminate. repeat split. discriminate.
Qed.

(** X11.  An answer that is ok but whose body is not JSON, or is the JSON
    value [null], is treated like a failed request: each of the three
    panels shows its fallback message and nothing is thrown. *)
Theorem unusable_body_fallback (r : response) (p : page) :
  body r = None \/ body r = Some VNull ->
  loadInsights_settled (Fulfilled r) p
    = (Ok tt, snd (set_insights insights_failed p)) /\
  doSearch_settled (Fulfilled r) p
    = (Ok tt, snd (set_results search_failed p)) /\
  loadDetails_settled (Fulfilled r) p
    = (Ok tt, snd (set_details details_failed p)).
Proof.
  intros H. destruct r as [[|] b]; cbn [body] in H.
  - destruct H as [-> | ->]; repeat split.
  - repeat split.
Qed.

Lemma unusable_body_fallback_witness :
  let r := Response true (Some VNull) in
  let p := Page None (Panel (lit "Searching...") []) (Panel (lit "Loading...") [])
             (Panel (lit "Loading...") []) [] in
  loadInsights_settled (Fulfilled r) p
    = (Ok tt, snd (set_insights insights_failed p)) /\
  doSearch_settled (Fulfilled r) p
    = (Ok tt, snd (set_results search_failed p)) /\
  loadDetails_settled (Fulfilled r) p
    = (Ok tt, snd (set_details details_failed p)).
Proof.
  intros r p. apply (unusable_body_fallback r p). now right.
Defined.

(** ** The rows of a mini list *)

Lemma own_keys_In m k : In k (own_keys m) <-> has_own k m = true.
Proof.
  rewrite <- names_In. split; intros H.
  - eapply Permutation_in; [apply own_keys_perm | exact H].
  - eapply Permutation_in; [symmetry; apply own_keys_perm | exact H].
Qed.


Lemma mini_rows_ok m ks :
  members_stringable m = true ->
  exists rows,
    map_result mini_row (map (fun k => (k, read m k)) ks) = Ok rows /\
    Forall2 (is_mini_row m) ks rows.
Proof.
  intros Hm. induction ks as [|k ks (rows & Hrows & HF)].
  - exists []. split; [reflexivity | constructor].
  - assert (Hs : stringable (read m k) = true).
    { unfold read. destruct (own k m) eqn:E; [|reflexivity].
      eapply members_stringable_own; eauto. }
    apply stringable_ToString in Hs. destruct Hs as [s Hs].
    eexists. cbn [map map_result]. unfold mini_row at 1, escapeHtml.
    cbn [fst snd ToString bind]. rewrite Hs. cbn [bind]. rewrite Hrows.
    cbn [bind]. split; [reflexivity|].
    constructor; [|exact HF]. exists s. auto.
Qed.



(** ** What reaches the markup of a card *)

Lemma Ok_inj {A} (x y : A) : Ok x = Ok y -> x = y.
Proof. now intros [= ->]. Qed.

Lemma replace_inert s : inert (replace s).
Proof. repeat split; apply replace_clean; simpl; tauto. Qed.

Lemma escapeHtml_inert v e : escapeHtml v = Ok e -> inert e.
Proof.
  unfold escapeHtml. intros H. step_bind H. injection H as <-.
  apply replace_inert.
Qed.

Lemma field_or_inert r k d e : field_or r k d = Ok e -> inert e.
Proof.
  unfold field_or. intros H. step_bind H. now apply escapeHtml_inert in H.
Qed.

(** X13.  Nothing a record holds can add markup to its card: the card is
    eight fixed pieces of markup with seven texts between them, and none
    of the texts holds a [<], [>], double quote or apostrophe. *)
Theorem card_markup_inert :
  exists t0 t1 t2 t3 t4 t5 t6 t7 : jsstring,
  forall (r : value) (markup : jsstring),
    card_markup r = Ok markup ->
    exists e1 e2 e3 e4 e5 e6 e7,
      markup = t0 ++ e1 ++ t1 ++ e2 ++ t2 ++ e3 ++ t3 ++ e4 ++ t4 ++ e5
                 ++ t5 ++ e6 ++ t6 ++ e7 ++ t7 /\
      inert e1 /\ inert e2 /\ inert e3 /\ inert e4 /\ inert e5 /\
      inert e6 /\ inert e7.
Proof.
  do 8 eexists. intros r markup H. unfold card_markup in H.
  do 7 step_bind H. apply Ok_inj in H. subst markup.
  do 7 eexists. split; [reflexivity|].
  apply field_or_inert in E, E0, E1, E2, E3, E5.
  repeat (split; [assumption|]). split; [|assumption].
  clear - E4. unfold bind in E4.
  destruct (get r (lit "amount")) as [amount|]; [|discriminate].
  destruct (truthy amount).
  - destruct (escapeHtml amount) as [e|] eqn:He; [|discriminate].
    apply Ok_inj in E4. subst a4. apply escapeHtml_inert in He.
    destruct He as (H1 & H2 & H3 & H4).
    repeat split; intros Hin; apply in_app_or in Hin;
      destruct Hin as [Hin | Hin]; try tauto;
      vm_compute in Hin; intuition discriminate.
  - apply Ok_inj in E4. subst a4. repeat split; intros [].
Qed.

Lemma card_markup_inert_witness :
  let r := VObject [(lit "name", VString (lit "<img src=x onerror='go()'>"));
                    (lit "amount", VString (lit "</div>"))] in
  exists t0 t1 t2 t3 t4 t5 t6 t7 markup e1 e2 e3 e4 e5 e6 e7,
    card_markup r = Ok markup /\
    markup = t0 ++ e1 ++ t1 ++ e2 ++ t2 ++ e3 ++ t3 ++ e4 ++ t4 ++ e5
               ++ t5 ++ e6 ++ t6 ++ e7 ++ t7 /\
    inert e1 /\ inert e2 /\ inert e3 /\ inert e4 /\ inert e5 /\
    inert e6 /\ inert e7.
Proof.
  intros r.
  destruct card_markup_inert as (t0 & t1 & t2 & t3 & t4 & t5 & t6 & t7 & H).
  exists t0, t1, t2, t3, t4, t5, t6, t7.
  destruct (card_markup r) as [markup|] eqn:E; [|discriminate E].
  exists markup.
  destruct (H r markup E) as (e1 & e2 & e3 & e4 & e5 & e6 & e7 & Hm).
  exists e1, e2, e3, e4, e5, e6, e7. split; [reflexivity | exact Hm].
Defined.

(** ** The rows of the details panel and the order of the raw map *)

Lemma leb_antisym a b : leb a b = true -> leb b a = true -> a = b.
Proof.
  unfold leb. rewrite !negb_true_iff. intros H1 H2. now apply ltb_total.
Qed.

Lemma sorted_unique l1 : forall l2,
  StronglySorted (fun a b => leb a b = true) l1 ->
  StronglySorted (fun a b => leb a b = true) l2 ->
  NoDup l1 -> NoDup l2 ->
  (forall k, In k l1 <-> In k l2) ->
  l1 = l2.
Proof.
  induction l1 as [|a l1 IH]; intros [|b l2] S1 S2 N1 N2 Hin.
  - reflexivity.
  - exfalso. apply (Hin b). now left.
  - exfalso. apply (Hin a). now left.
  - inversion S1 as [|? ? S1' A1]; inversion S2 as [|? ? S2' A2]; subst.
    inversion N1 as [|? ? Ha N1']; inversion N2 as [|? ? Hb N2']; subst.
    rewrite Forall_forall in A1, A2.
    assert (a = b).
    { destruct (proj1 (Hin a) (or_introl eq_refl)) as [E | E]; [auto|].
      destruct (proj2 (Hin b) (or_introl eq_refl)) as [E' | E']; [auto|].
      apply leb_antisym; auto. }
    subst b. f_equal. apply IH; try assumption.
    intros k. split; intros Hk.
    + destruct (proj1 (Hin k) (or_intror Hk)) as [-> | H]; tauto.
    + destruct (proj2 (Hin k) (or_intror Hk)) as [-> | H]; tauto.
Qed.

Lemma In_own m : forall k v,
  NoDup (map fst m) -> In (k, v) m -> own k m = Some v.
Proof.
  induction m as [|[k' v'] m IH]; intros k v Hnd Hin; [destruct Hin|].
  cbn [map fst] in Hnd. inversion Hnd as [|? ? Hout Hnd']; subst.
  cbn [own]. destruct Hin as [[= -> ->] | Hin].
  - apply own_None in Hout. rewrite Hout, eqb_refl. reflexivity.
  - now rewrite (IH k v Hnd' Hin).
Qed.

Lemma own_permutation m1 m2 k :
  NoDup (map fst m1) -> Permutation m1 m2 -> own k m1 = own k m2.
Proof.
  intros Hnd Hperm.
  assert (Hnd2 : NoDup (map fst m2)).
  { eapply Permutation_NoDup; [apply Permutation_map, Hperm | exact Hnd]. }
  destruct (own k m1) as [v|] eqn:E.
  - symmetry. apply In_own; [exact Hnd2|].
    eapply Permutation_in; [exact Hperm | now apply own_In].
  - symmetry. apply own_None. apply own_None in E. intros Hin. apply E.
    eapply Permutation_in; [symmetry; apply Permutation_map, Hperm | exact Hin].
Qed.

Lemma add_rows_ext raw1 raw2 keys : forall markup,
  (forall k, own k raw1 = own k raw2) ->
  add_rows (VObject raw1) keys markup = add_rows (VObject raw2) keys markup.
Proof.
  induction keys as [|k keys IH]; intros markup H; [reflexivity|].
  cbn [add_rows]. unfold kv_row. cbn [get]. rewrite (H k).
  destruct (escapeHtml (VString k)); [|reflexivity]. cbn [bind].
  destruct (ToString _); [|reflexivity]. cbn [bind].
  destruct (escapeHtml _); [|reflexivity]. cbn [bind]. now apply IH.
Qed.

(** X14.  The rows of the details panel do not depend on the order in
    which the raw map lists its fields: two raw maps with the same
    fields, no name repeated, give the same sorted keys and the same
    rows. *)
Theorem details_rows_order (raw1 raw2 : members_t) (markup : jsstring) :
  NoDup (map fst raw1) ->
  Permutation raw1 raw2 ->
  sort leb (own_keys raw1) = sort leb (own_keys raw2) /\
  add_rows (VObject raw1) (sort leb (own_keys raw1)) markup =
  add_rows (VObject raw2) (sort leb (own_keys raw2)) markup.
Proof.
  intros Hnd Hperm.
  assert (Hkeys : sort leb (own_keys raw1) = sort leb (own_keys raw2)).
  { apply sorted_unique; try apply sort_leb_sorted;
      try apply sorted_keys_NoDup.
    intros k. rewrite !sorted_keys_In. unfold has_own.
    now rewrite (own_permutation raw1 raw2 k Hnd Hperm). }
  split; [exact Hkeys|]. rewrite Hkeys. apply add_rows_ext.
  intros k. now apply own_permutation.
Qed.

Lemma details_rows_order_witness :
  let raw1 := [(lit "b", VString (lit "x")); (lit "a", VNull)] in
  let raw2 := [(lit "a", VNull); (lit "b", VString (lit "x"))] in
  sort leb (own_keys raw1) = sort leb (own_keys raw2) /\
  add_rows (VObject raw1) (sort leb (own_keys raw1)) [] =
  add_rows (VObject raw2) (sort leb (own_keys raw2)) [].
Proof.
  intros raw1 raw2. apply (details_rows_order raw1 raw2 []).
  - repeat constructor; simpl; intuition discriminate.
  - apply perm_swap.
Defined.

(** ** A search that starts *)

(** X15.  A search that starts, whether or not its request can be sent,
    drops the cards of the search before it and puts the hint back in
    the details panel; the insights panel and the requests already sent
    are kept. *)
Theorem doSearch_resets (p : page) (q : jsstring) :
  q_value p = Some q ->
  trim q <> [] ->
  resultsEl (snd (doSearch p)) = Panel (lit "Searching...") [] /\
  detailsEl (snd (doSearch p)) = Panel click_hint [] /\
  insightsEl (snd (doSearch p)) = insightsEl p /\
  (fetched (snd (doSearch p)) = fetched p \/
   exists url, fetched (snd (doSearch p)) = fetched p ++ [url]).
Proof.
  intros Hq Hne. rewrite (doSearch_cases p q Hq).
  destruct (trim q) as [|t ts]; [congruence|].
  destruct (Encode (t :: ts)); cbn [snd resultsEl detailsEl insightsEl fetched];
    repeat split; eauto.
Qed.

Lemma doSearch_resets_witness :
  let old := Card (lit "button") (lit "result-card") [] VNull in
  let p := Page (Some (lit "ali")) (Panel [] [old]) (Panel (lit "details") [])
             (Panel [] []) [lit "/api/insights"] in
  resultsEl (snd (doSearch p)) = Panel (lit "Searching...") [] /\
  detailsEl (snd (doSearch p)) = Panel click_hint [] /\
  insightsEl (snd (doSearch p)) = insightsEl p /\
  (fetched (snd (doSearch p)) = fetched p \/
   exists url, fetched (snd (doSearch p)) = fetched p ++ [url]).
Proof.
  intros old p. apply (doSearch_resets p (lit "ali")); [reflexivity | discriminate].
Defined.

Lemma Encode_plain s : forallb unescaped s = true -> Encode s = Ok s.
Proof.
  induction s as [|c s IH]; [reflexivity|]. cbn [forallb Encode].
  rewrite andb_true_iff. intros [-> Hs]. rewrite (IH Hs). reflexivity.
Qed.

(** X16.  A query that, once trimmed, is made of letters, digits and the
    marks [-_.!~*'()] only is sent as typed. *)
Theorem doSearch_plain (p : page) (q : jsstring) :
  q_value p = Some q ->
  trim q <> [] ->
  forallb unescaped (trim q) = true ->
  fst (doSearch p) = Ok tt /\
  fetched (snd (doSearch p)) =
    fetched p ++ [lit "/api/search?q=" ++ trim q ++ lit "&limit=25"].
Proof.
  intros Hq Hne Hplain. rewrite (doSearch_cases p q Hq).
  rewrite (Encode_plain _ Hplain).
  destruct (trim q) as [|t ts]; [congruence|]. split; reflexivity.
Qed.

Lemma doSearch_plain_witness :
  let p := Page (Some (lit " x.com ")) (Panel [] []) (Panel [] []) (Panel [] []) [] in
  fst (doSearch p) = Ok tt /\
  fetched (snd (doSearch p)) =
    fetched p ++ [lit "/api/search?q=" ++ trim (lit " x.com ") ++ lit "&limit=25"].
Proof.
  intros p. apply (doSearch_plain p (lit " x.com "));
    [reflexivity | discriminate | reflexivity].
Defined.

(** ** The dashboard *)

Lemma field_figure data ks k :
  displayable data ks = true -> In k ks ->
  exists text, field data k = Ok text /\ is_figure data k text.
Proof.
  intros H Hin. destruct (displayable_get _ _ _ H Hin) as (v & Hv & Hs).
  apply stringable_ToString in Hs. destruct Hs as [s Hs].
  exists (replace s). split.
  - unfold field, escapeHtml. rewrite Hv. cbn [bind]. rewrite Hs. reflexivity.
  - exists v, s. split; [exact Hv|]. split; [exact Hs | apply replace_escaped].
Qed.

Lemma renderMiniList_list v :
  countable v = true ->
  exists markup, renderMiniList v = Ok markup /\ is_mini_list v markup.
Proof.
  intros H. destruct (truthy v) eqn:Ht.
  - destruct v as [ | |b|n|s|l|m];
      try (unfold countable in H; rewrite Ht in H; discriminate).
    cbn [countable] in H. destruct m as [|kv m]; [eexists; split; reflexivity|].
    destruct (mini_rows_ok (kv :: m) (own_keys (kv :: m)) H)
      as (rows & Hrows & HF).
    eexists. split; [|exists rows; split; [exact HF | reflexivity]].
    unfold renderMiniList, or_else, Object_entries.
    cbn [truthy Object_keys bind]. rewrite read_all_object. cbn [bind].
    change (fun k => (k, match own k (kv :: m) with
                         | Some x => x
                         | None => VUndefined
                         end))
      with (fun k => (k, read (kv :: m) k)).
    destruct (own_keys (kv :: m)) as [|k ks] eqn:E.
    + exfalso. destruct kv as [k v].
      assert (Hin : In k (own_keys ((k, v) :: m))).
      { apply own_keys_In, has_own_In. now left. }
      rewrite E in Hin. destruct Hin.
    + cbn [map] in *. rewrite Hrows. reflexivity.
  - exists (html "<div class='muted'>No data.</div>").
    split; [now apply renderMiniList_falsy|].
    destruct v as [ | |b|n|s|l|m]; try discriminate Ht; try reflexivity.
    destruct s; [reflexivity | discriminate Ht].
Qed.

(** C6.  The dashboard is nine fixed pieces of markup with eight values
    between them, every one of the eight fields of the answer once and
    in this order: the six figures, each the escaped string form of its
    field, and the two lists, each the list block with one row for every
    name of its map (the "No data." block when the map is empty or
    absent). *)
Theorem loadInsights_renders :
  exists t0 t1 t2 t3 t4 t5 t6 t7 t8 : jsstring,
  forall (data top_events top_payment_status : value) (p : page),
    displayable data insight_fields = true ->
    get data (lit "top_events") = Ok top_events ->
    countable top_events = true ->
    get data (lit "top_payment_status") = Ok top_payment_status ->
    countable top_payment_status = true ->
    exists f1 f2 f3 f4 f5 f6 m1 m2,
      is_figure data "total_records" f1 /\
      is_figure data "total_amount" f2 /\
      is_figure data "missing_email_pct" f3 /\
      is_figure data "missing_phone_pct" f4 /\
      is_figure data "duplicate_emails" f5 /\
      is_figure data "duplicate_phones" f6 /\
      is_mini_list top_events m1 /\
      is_mini_list top_payment_status m2 /\
      loadInsights_settled (answered data) p =
        (Ok tt,
         snd (set_insights
                (t0 ++ f1 ++ t1 ++ f2 ++ t2 ++ f3 ++ t3 ++ f4 ++ t4 ++ f5
                    ++ t5 ++ f6 ++ t6 ++ m1 ++ t7 ++ m2 ++ t8) p)).
Proof.
  do 9 eexists. intros data te tp p H Hte Hcte Htp Hctp.
  destruct (field_figure data _ "total_records" H) as (f1 & H1 & F1); [listed|].
  destruct (field_figure data _ "total_amount" H) as (f2 & H2 & F2); [listed|].
  destruct (field_figure data _ "missing_email_pct" H) as (f3 & H3 & F3); [listed|].
  destruct (field_figure data _ "missing_phone_pct" H) as (f4 & H4 & F4); [listed|].
  destruct (field_figure data _ "duplicate_emails" H) as (f5 & H5 & F5); [listed|].
  destruct (field_figure data _ "duplicate_phones" H) as (f6 & H6 & F6); [listed|].
  destruct (renderMiniList_list te Hcte) as (m1 & Hm1 & L1).
  destruct (renderMiniList_list tp Hctp) as (m2 & Hm2 & L2).
  exists f1, f2, f3, f4, f5, f6, m1, m2.
  repeat (split; [assumption|]).
  unfold loadInsights_settled, then_then_catch, answered, on_response, json.
  cbn [ok body negb].
  unfold loadInsights_data, and_then, lift, insights_markup, mini.
  rewrite H1, H2, H3, H4, H5, H6, Hte, Htp. cbn [bind].
  rewrite Hm1, Hm2. cbn [bind].
  reflexivity.
Qed.

Lemma loadInsights_renders_witness :
  let num := fun (text : jsstring) => VNumber (Number text false) in
  let events := VObject [(lit "Gala <2024>", num (lit "5")); (lit "Expo", num (lit "3"))] in
  let statuses := VObject [(lit "paid", num (lit "7")); (lit "pending", num (lit "1"))] in
  let data := VObject [(lit "total_records", num (lit "8"));
                       (lit "total_amount", num (lit "4500.5"));
                       (lit "missing_email_pct", num (lit "12.5"));
                       (lit "missing_phone_pct", num (lit "25"));
                       (lit "duplicate_emails", num (lit "2"));
                       (lit "duplicate_phones", VNumber (Number (lit "0") true));
                       (lit "top_events", events);
                       (lit "top_payment_status", statuses)] in
  let p := Page None (Panel [] []) (Panel [] []) (Panel (lit "Loading...") []) [] in
  exists t0 t1 t2 t3 t4 t5 t6 t7 t8 f1 f2 f3 f4 f5 f6 m1 m2,
    is_figure data "total_records" f1 /\
    is_figure data "total_amount" f2 /\
    is_figure data "missing_email_pct" f3 /\
    is_figure data "missing_phone_pct" f4 /\
    is_figure data "duplicate_emails" f5 /\
    is_figure data "duplicate_phones" f6 /\
    is_mini_list events m1 /\
    is_mini_list statuses m2 /\
    loadInsights_settled (answered data) p =
      (Ok tt,
       snd (set_insights
              (t0 ++ f1 ++ t1 ++ f2 ++ t2 ++ f3 ++ t3 ++ f4 ++ t4 ++ f5
                  ++ t5 ++ f6 ++ t6 ++ m1 ++ t7 ++ m2 ++ t8) p)).
Proof.
  intros num events statuses data p.
  destruct loadInsights_renders
    as (t0 & t1 & t2 & t3 & t4 & t5 & t6 & t7 & t8 & H).
  exists t0, t1, t2, t3, t4, t5, t6, t7, t8.
  apply (H data events statuses p); reflexivity.
Defined.

(** The snapshot of an empty store: zeros and two empty maps are shown,
    with "No data." for both lists, and nothing is thrown. *)
Example empty_store_snapshot :
  let zero := VNumber (Number (lit "0") true) in
  let data := VObject [(lit "total_records", zero); (lit "total_amount", zero);
                       (lit "missing_email_pct", zero);
                       (lit "missing_phone_pct", zero);
                       (lit "duplicate_emails", zero);
                       (lit "duplicate_phones", zero);
                       (lit "top_events", VObject []);
                       (lit "top_payment_status", VObject [])] in
  mini data "top_events" = Ok (html "<div class='muted'>No data.</div>") /\
  mini data "top_payment_status" = Ok (html "<div class='muted'>No data.</div>") /\
  is_ok (insights_markup data) = true.
Proof. repeat split. Qed.
